(** * ai_script_agent: the learning loop of the AppleScript agent

    A shallow embedding of [src/v2/ai_script_agent_learning.py] (class
    [ScriptLearningAgent] and the interactive loop), of
    [src/v1/ai_script_agent_learning.py] (the first generation of the same)
    and of [src/v1/ai_script_agent_whisper.py] (the agent without records).

    Modelling conventions.
    - A Python [str] is a [string]; every character stands for the code point
      of the same number (0..255).  [str.strip], [str.lower] and
      [str.replace] are the built-ins restricted to that range.
    - The SQLite file at [db_path] is a [Database]: either it has no
      [solutions] table yet, or it holds the table (with the columns of v2),
      whose rows are kept in rowid order together with the AUTOINCREMENT
      counter.  A file whose [solutions] table was created by v1 (six
      columns, at the same default path) is not a [Database]: on such a file
      the statements of v2 name columns that do not exist.
    - [CURRENT_TIMESTAMP] has a resolution of one second; a timestamp is the
      number of seconds the wall clock shows when the row is written (the
      column holds the text YYYY-MM-DD HH:MM:SS, whose order as text is the
      order of these numbers).
    - Errors of the storage medium, interrupts and the like are left out; the
      exceptions kept are the missing table and the end of the input.
    - The console, the chat-completion service and [osascript] are the
      environment: lines typed by the user are a queue, everything printed and
      every external call is appended to a trace.
    - Every external call returns: the chat-completion service, [osascript],
      the microphone and the transcription are functions of their arguments.
      The source sets no timeout on any of them, so a call that never returns
      blocks the program for good; such runs are outside this model, and
      every statement below about a run that ends is a statement about the
      runs in which each external call returns. *)

From Stdlib Require Import List String Ascii Bool Arith PeanoNat ZArith Lia Sorted.
From Stdlib Require Import DecimalString.
Import ListNotations.
Local Open Scope string_scope.
Local Open Scope list_scope.

Set Implicit Arguments.

(* ------------------------------------------------------------------ *)
(** ** Python strings *)

Module Py.

(** The line feed and the double quote, as strings. *)
Definition nl : string := String (ascii_of_nat 10) EmptyString.
Definition dq : string := String (ascii_of_nat 34) EmptyString.

(** [str.isspace] on one character, code points below 256: the controls
    U+0009..U+000D and U+001C..U+001F, the space, U+0085 and U+00A0. *)
Definition isspace (c : ascii) : bool :=
  let n := nat_of_ascii c in
  (((9 <=? n) && (n <=? 13)) || ((28 <=? n) && (n <=? 31))
   || (n =? 32) || (n =? 133) || (n =? 160))%nat.

Fixpoint lstrip (s : string) : string :=
  match s with
  | String c s' => if isspace c then lstrip s' else s
  | EmptyString => EmptyString
  end.

(** Dropping the trailing white space, in one pass from the right. *)
Fixpoint rstrip (s : string) : string :=
  match s with
  | EmptyString => EmptyString
  | String c s' =>
      match rstrip s' with
      | EmptyString => if isspace c then EmptyString else String c EmptyString
      | r => String c r
      end
  end.

(** [s.strip()] *)
Definition strip (s : string) : string := rstrip (lstrip s).

(** [str.lower] on one character: A..Z and the Latin-1 capitals
    U+00C0..U+00DE (U+00D7, the multiplication sign, apart) move up by 32. *)
Definition lower_char (c : ascii) : ascii :=
  let n := nat_of_ascii c in
  if (((65 <=? n) && (n <=? 90))
      || ((192 <=? n) && (n <=? 222) && negb (n =? 215)))%nat
  then ascii_of_nat (n + 32) else c.

(** [s.lower()] *)
Fixpoint lower (s : string) : string :=
  match s with
  | EmptyString => EmptyString
  | String c s' => String (lower_char c) (lower s')
  end.

(** [old in s] for strings: [old] occurs in [s] as a substring. *)
Fixpoint contains (old s : string) : bool :=
  prefix old s
  || match s with
     | EmptyString => false
     | String _ s' => contains old s'
     end.

(** [s.replace(old, new)] for a non-empty [old]: the occurrences are found
    from the left and do not overlap.  [skip] counts the characters of an
    occurrence that are still to be dropped. *)
Fixpoint replace_from (old new : string) (skip : nat) (s : string) : string :=
  match s with
  | EmptyString => EmptyString
  | String c s' =>
      match skip with
      | S k => replace_from old new k s'
      | O =>
          if prefix old s
          then (new ++ replace_from old new (String.length old - 1) s')%string
          else String c (replace_from old new 0 s')
      end
  end.

Definition replace (old new s : string) : string := replace_from old new 0 s.

(** Truth value of an [Optional[str]]: [None] and the empty string are
    false. *)
Definition truthy (o : option string) : bool :=
  match o with
  | None => false
  | Some EmptyString => false
  | Some _ => true
  end.

(** [x in ["yes", "y"]] *)
Definition in_yes_y (x : string) : bool := (x =? "yes") || (x =? "y").

End Py.

(* ------------------------------------------------------------------ *)
(** ** The [solutions] table *)

(** One row of [solutions] (v2 schema).  [verified_success] is the nullable
    BOOLEAN column: [None] is NULL. *)
Record Solution : Type := mkSolution {
  id : nat;
  command : string;
  applescript : string;
  success : bool;
  verified_success : option bool;
  error_message : option string;
  feedback : option string;
  timestamp : nat
}.

(** The table: its rows in rowid order, and the largest rowid ever handed out
    (the [sqlite_sequence] entry that AUTOINCREMENT maintains). *)
Record Table : Type := mkTable {
  rows : list Solution;
  seq : nat
}.

Definition empty_table : Table := mkTable [] 0.

(** The database file: [None] while it has no [solutions] table. *)
Definition Database : Type := option Table.

(** Python exceptions that leave a method. *)
Inductive exn : Type :=
| OperationalError (msg : string)   (* sqlite3: no such table *)
| EOFError.                         (* input() at the end of the input *)

Definition no_such_table : exn := OperationalError "no such table: solutions".

(** *** SQL expressions

    A WHERE clause evaluates to TRUE, FALSE or NULL; a row is kept when the
    value is TRUE. *)
Module Sql.

Definition tv : Type := option bool.     (* None is NULL *)

Definition and3 (a b : tv) : tv :=
  match a, b with
  | Some false, _ | _, Some false => Some false
  | Some true, Some true => Some true
  | _, _ => None
  end.

Definition or3 (a b : tv) : tv :=
  match a, b with
  | Some true, _ | _, Some true => Some true
  | Some false, Some false => Some false
  | _, _ => None
  end.

(** [col = ?] on a TEXT NOT NULL column, BINARY collation. *)
Definition eq_text (col param : string) : tv := Some (col =? param)%string.

(** [col = 1] on a BOOLEAN column that holds 0, 1 or NULL. *)
Definition eq_one (col : option bool) : tv := col.

(** [col IS NULL] *)
Definition is_null (col : option bool) : tv :=
  match col with None => Some true | Some _ => Some false end.

Definition holds (v : tv) : bool :=
  match v with Some true => true | _ => false end.

(** [ORDER BY timestamp DESC LIMIT 1] over the rows in scan order: SQLite
    keeps the best row seen so far and replaces it only by a row that sorts
    strictly before it, so among equal timestamps the row scanned first
    (the lowest rowid) stays.  [key] reads the [timestamp] column. *)
Section OrderBy.
Variable row : Type.
Variable key : row -> nat.

Fixpoint top1 (best : option row) (l : list row) : option row :=
  match l with
  | [] => best
  | r :: l' =>
      top1 (match best with
            | None => Some r
            | Some b => if (key b <? key r)%nat then Some r else Some b
            end) l'
  end.

Definition order_by_desc_limit_1 (l : list row) : option row :=
  top1 None l.
End OrderBy.

End Sql.

(** [setup_database]: CREATE TABLE IF NOT EXISTS solutions (...). *)
Definition setup_database (db : Database) : Database :=
  match db with
  | None => Some empty_table
  | Some t => Some t
  end.

(** The WHERE clause of v2's [find_successful_solution]:
    [command = ? AND success = 1
     AND (verified_success = 1 OR verified_success IS NULL)]. *)
Definition where_successful (cmd : string) (r : Solution) : Sql.tv :=
  Sql.and3 (Sql.and3 (Sql.eq_text (command r) cmd)
                     (Sql.eq_one (Some (success r))))
           (Sql.or3 (Sql.eq_one (verified_success r))
                    (Sql.is_null (verified_success r))).

(** The row that the SELECT of [find_successful_solution] fetches. *)
Definition select_successful (t : Table) (cmd : string) : option Solution :=
  Sql.order_by_desc_limit_1 timestamp
    (filter (fun r => Sql.holds (where_successful cmd r)) (rows t)).

(** [find_successful_solution]: [result[0] if result else None].  The query
    raises when the table does not exist. *)
Definition find_successful_solution (db : Database) (cmd : string)
  : exn + option string :=
  match db with
  | None => inl no_such_table
  | Some t => inr (option_map applescript (select_successful t cmd))
  end.

(** The INSERT of [save_solution], run when the clock shows [now]: the row
    gets the next rowid and the current time. *)
Definition insert (now : nat) (t : Table) (cmd script : string) (ok : bool)
    (verified : option bool) (err fb : option string) : Table :=
  let i := S (seq t) in
  mkTable (rows t ++ [mkSolution i cmd script ok verified err fb now]) i.

Definition save_solution (now : nat) (db : Database) (cmd script : string)
    (ok : bool) (verified : option bool) (err fb : option string)
  : exn + Database :=
  match db with
  | None => inl no_such_table
  | Some t => inr (Some (insert now t cmd script ok verified err fb))
  end.

(** *** The first generation of the agent (v1) *)
Module V1.

(** v1's table has no [verified_success] and no [feedback] column. *)
Record Solution : Type := mkSolution {
  id : nat;
  command : string;
  applescript : string;
  success : bool;
  error_message : option string;
  timestamp : nat
}.

(** [WHERE command = ? AND success = 1] *)
Definition where_successful (cmd : string) (r : Solution) : Sql.tv :=
  Sql.and3 (Sql.eq_text (command r) cmd) (Sql.eq_one (Some (success r))).

(** [SELECT applescript ... ORDER BY timestamp DESC LIMIT 1] and
    [result[0] if result else None], on a table that exists. *)
Definition find_successful_solution (rs : list Solution) (cmd : string)
  : option string :=
  option_map applescript
    (Sql.order_by_desc_limit_1 timestamp
       (filter (fun r => Sql.holds (where_successful cmd r)) rs)).

End V1.

(** What v1 sees of a v2 row: the six columns the two schemas share. *)
Definition v1_view (r : Solution) : V1.Solution :=
  V1.mkSolution (id r) (command r) (applescript r) (success r)
                (error_message r) (timestamp r).

(** A call of [save_solution]: its arguments and the clock reading at the
    moment the row is written. *)
Record Attempt : Type := mkAttempt {
  at_time : nat;
  at_command : string;
  at_script : string;
  at_success : bool;
  at_verified : option bool;
  at_error : option string;
  at_feedback : option string
}.

(** [save_solution] called once per attempt, in the order of the list. *)
Fixpoint save_all (db : Database) (l : list Attempt) : exn + Database :=
  match l with
  | [] => inr db
  | a :: l' =>
      match save_solution (at_time a) db (at_command a) (at_script a)
                          (at_success a) (at_verified a) (at_error a)
                          (at_feedback a) with
      | inl e => inl e
      | inr db' => save_all db' l'
      end
  end.

(** A retrieval for [cmd] after the attempts of [l] were saved, one after the
    other, by an agent that started on a new database file. *)
Definition retrieve_after (l : list Attempt) (cmd : string)
  : exn + option string :=
  match save_all (setup_database None) l with
  | inl e => inl e
  | inr d => find_successful_solution d cmd
  end.

(** The rows that a run of inserts adds when the counter stands at [i]. *)
Fixpoint rows_from (i : nat) (l : list Attempt) : list Solution :=
  match l with
  | [] => []
  | a :: l' =>
      mkSolution (S i) (at_command a) (at_script a) (at_success a)
                 (at_verified a) (at_error a) (at_feedback a) (at_time a)
      :: rows_from (S i) l'
  end.

(** *** The selection policy in the words of the specification *)

(** An attempt qualifies for a command when the command is the same string,
    it succeeded, and it is not marked as verified-failed. *)
Definition qualifies (cmd : string) (r : Solution) : Prop :=
  command r = cmd /\ success r = true /\
  (verified_success r = Some true \/ verified_success r = None).

Definition attempt_qualifies (cmd : string) (a : Attempt) : bool :=
  (at_command a =? cmd)%string && at_success a
  && match at_verified a with Some false => false | _ => true end.

(** The script of the qualifying attempt that was appended last. *)
Definition latest_appended (cmd : string) (l : list Attempt) : option string :=
  match rev (filter (attempt_qualifies cmd) l) with
  | [] => None
  | a :: _ => Some (at_script a)
  end.

(** The rows that a later state of the table has gained. *)
Definition new_rows (before after : Table) : list Solution :=
  skipn (List.length (rows before)) (rows after).

(* ------------------------------------------------------------------ *)
(** ** The response clean-up of [ai_script_agent_whisper.py] *)

Module Whisper.

Definition fence : string := "```".
Definition fence_applescript : string := "```applescript".

(** [code = content.strip()] and then
    [code.replace("```applescript", "").replace("```", "").strip()]. *)
Definition clean_response (content : string) : string :=
  Py.strip (Py.replace fence "" (Py.replace fence_applescript ""
                                            (Py.strip content))).

End Whisper.

(* ------------------------------------------------------------------ *)
(** ** The agent and its environment *)

Inductive role : Type := system | user.

Record Message : Type := mkMessage { msg_role : role; content : string }.

(** What [subprocess.run(["osascript", "-e", script], ...)] does: it returns
    a completed process, or raises (the text is [str(e)]). *)
Inductive ProcResult : Type :=
| Completed (returncode : Z) (stderr : string)
| RunRaised (msg : string).

Inductive Event : Type :=
| Print (s : string)                          (* print(s) *)
| Input (prompt : string) (answer : option string)
                                              (* input(prompt); None at EOF *)
| ChatCompletion (messages : list Message)    (* client.chat.completions.create *)
| Osascript (script : string).                (* subprocess.run *)

Record World : Type := mkWorld {
  db : Database;            (* the file at db_path *)
  stdin : list string;      (* the lines the user is going to type *)
  clock : nat;              (* wall clock, in seconds *)
  trace : list Event        (* oldest first *)
}.

Inductive Result (A : Type) : Type :=
| Returned (a : A) (w : World)
| Raised (e : exn) (w : World).

Arguments Returned {A} a w.
Arguments Raised {A} e w.

Definition M (A : Type) : Type := World -> Result A.

Definition ret {A} (a : A) : M A := fun w => Returned a w.

Definition bind {A B} (m : M A) (k : A -> M B) : M B :=
  fun w => match m w with
           | Returned a w' => k a w'
           | Raised e w' => Raised e w'
           end.

Declare Scope agent_scope.
Delimit Scope agent_scope with agent.
Notation "x <- m ;; k" := (bind m (fun x => k))
  (at level 61, m at next level, right associativity) : agent_scope.
Notation "m ;; k" := (bind m (fun _ => k))
  (at level 61, right associativity) : agent_scope.
Local Open Scope agent_scope.

Definition final_world {A} (r : Result A) : World :=
  match r with Returned _ w => w | Raised _ w => w end.

Definition log (e : Event) : M unit :=
  fun w => Returned tt (mkWorld (db w) (stdin w) (clock w) (trace w ++ [e])).

Definition print (s : string) : M unit := log (Print s).

(** [input(prompt)]: the prompt is written, then one line is read. *)
Definition input (prompt : string) : M string :=
  fun w =>
    match stdin w with
    | line :: rest =>
        Returned line (mkWorld (db w) rest (clock w)
                               (trace w ++ [Input prompt (Some line)]))
    | [] =>
        Raised EOFError (mkWorld (db w) [] (clock w)
                                 (trace w ++ [Input prompt None]))
    end.

(** [with sqlite3.connect(self.db_path) as conn:] around a query ... *)
Definition query {A} (q : Database -> exn + A) : M A :=
  fun w => match q (db w) with
           | inr a => Returned a w
           | inl e => Raised e w
           end.

(** ... and around a statement that writes; it runs at the current time. *)
Definition execute (stmt : nat -> Database -> exn + Database) : M unit :=
  fun w => match stmt (clock w) (db w) with
           | inr db' => Returned tt (mkWorld db' (stdin w) (clock w) (trace w))
           | inl e => Raised e w
           end.

(** The lines that a list of events has printed. *)
Definition prints (evs : list Event) : list string :=
  flat_map (fun e => match e with Print s => [s] | _ => [] end) evs.

(** *** Constant texts *)

Definition lines (l : list string) : string := String.concat Py.nl l.

Definition SYSTEM_PROMPT : string := lines [
  "You are an expert AppleScript developer. Generate ONLY the raw AppleScript code with no explanations or formatting. For Numbers app, use this exact structure:";
  "";
  ("tell application " ++ Py.dq ++ "Numbers" ++ Py.dq)%string;
  "    activate";
  "    delay 1";
  "    tell document 1";
  "        tell sheet 1";
  "            tell table 1";
  "                repeat with i from 1 to (get row count)";
  "                    set hasText to false";
  "                    -- Check cells in the row";
  "                    repeat with j from 1 to (get column count)";
  "                        set cellAddress to (get name of column j) & i";
  "                        set cellValue to value of cell cellAddress";
  ("                        if cellValue is not missing value and cellValue is not "
    ++ Py.dq ++ Py.dq ++ " then")%string;
  "                            -- Check if the value is specifically text (not a number)";
  "                            if class of cellValue is text then";
  "                                set hasText to true";
  "                                exit repeat";
  "                            end if";
  "                        end if";
  "                    end repeat";
  "                    ";
  "                    -- If row has text, color all cells in that row";
  "                    if hasText then";
  "                        repeat with j from 1 to (get column count)";
  "                            set cellAddress to (get name of column j) & i";
  "                            set background color of cell cellAddress to {0, 65535, 0}";
  "                        end repeat";
  "                    end if";
  "                end repeat";
  "            end tell";
  "        end tell";
  "    end tell";
  "end tell" ].

Definition NOT_AUTHORISED : string := "Not authorised to send Apple events".

(** The five lines printed when the permission is missing. *)
Definition PERMISSION_HELP : list string := [
  (Py.nl ++ "Permission required! To allow this script to control applications, please:")%string;
  "1. Open System Settings";
  "2. Go to Privacy & Security > Automation";
  "3. Find Python or Terminal in the list";
  "4. Enable the checkbox for the application you want to control" ].

(** [str(x)] inside an f-string, for an [Optional[str]]. *)
Definition fmt (o : option string) : string :=
  match o with Some s => s | None => "None" end.

Definition execution_failed (err : option string) : string :=
  (Py.nl ++ "Execution failed: " ++ fmt err)%string.

Definition ASK_APPROVAL : string :=
  (Py.nl ++ "Execute this script? (yes/no): ")%string.
Definition ASK_VERIFIED : string := "Did this achieve what you wanted? (yes/no): ".
Definition ASK_FEEDBACK : string := "What wasn't correct about the result? ".

(** *** Observing a session *)

(** The world after some more events. *)
Definition emit (w : World) (evs : list Event) : World :=
  mkWorld (db w) (stdin w) (clock w) (trace w ++ evs).

(** What a run has added to the trace and to the table. *)
Definition new_events (w w' : World) : list Event :=
  skipn (List.length (trace w)) (trace w').

Definition recorded (w w' : World) : list Solution :=
  match db w, db w' with
  | Some t, Some t' => new_rows t t'
  | _, _ => []
  end.

Definition is_osascript (e : Event) : bool :=
  match e with Osascript _ => true | _ => false end.

(** [line.strip().lower() in ["yes", "y"]] *)
Definition affirmative (line : string) : bool :=
  Py.in_yes_y (Py.lower (Py.strip line)).

(** The pair that [execute_applescript] returns for an outcome of the run. *)
Definition exec_outcome (p : ProcResult) : bool * option string :=
  match p with
  | Completed returncode stderr =>
      if (returncode =? 0)%Z then (true, None) else (false, Some stderr)
  | RunRaised e => (false, Some e)
  end.

(** *** class ScriptLearningAgent (v2) *)

Record ScriptLearningAgent : Type := mkAgent {
  db_path : string;
  enable_verification : bool
}.

Section Agent.

(** The chat-completion service, up to [response.choices[0].message.content]:
    [inr] is the content, [inl] the text of the exception raised on the
    way. *)
Variable chat_completion : list Message -> string + string.

(** The operating system running [osascript -e script]. *)
Variable osascript : string -> ProcResult.

Variable self : ScriptLearningAgent.

(** [__init__] *)
Definition init : M unit :=
  execute (fun _ d => inr (setup_database d)).

Definition messages_for (cmd : string) (previous_solution : option string)
  : list Message :=
  [mkMessage system SYSTEM_PROMPT]
  ++ (if Py.truthy previous_solution
      then [mkMessage system "Here's a previously successful solution for reference:";
            mkMessage user (fmt previous_solution)]
      else [])
  ++ [mkMessage user ("Generate AppleScript code to: " ++ cmd)%string].

Definition generate_applescript (cmd : string) : M (option string) :=
  previous_solution <- query (fun d => find_successful_solution d cmd) ;;
  let messages := messages_for cmd previous_solution in
  log (ChatCompletion messages) ;;
  match chat_completion messages with
  | inr content => ret (Some (Py.strip content))
  | inl e => print ("Error generating AppleScript: " ++ e)%string ;; ret None
  end.

Fixpoint print_all (l : list string) : M unit :=
  match l with
  | [] => ret tt
  | s :: l' => print s ;; print_all l'
  end.

Definition execute_applescript (script : string) : M (bool * option string) :=
  log (Osascript script) ;;
  match osascript script with
  | Completed returncode stderr =>
      if (returncode =? 0)%Z then ret (true, None)
      else
        let error_msg := stderr in
        (if Py.contains NOT_AUTHORISED error_msg
         then print_all PERMISSION_HELP else ret tt) ;;
        ret (false, Some error_msg)
  | RunRaised e => ret (false, Some e)
  end.

Definition handle_command (cmd : string) : M bool :=
  script <- generate_applescript cmd ;;
  match script with
  | None | Some EmptyString => ret false
  | Some script =>
      print (Py.nl ++ "Generated AppleScript:" ++ Py.nl)%string ;;
      print script ;;
      approval <- input ASK_APPROVAL ;;
      if negb (Py.in_yes_y (Py.lower (Py.strip approval))) then ret false
      else
        r <- execute_applescript script ;;
        let '(success, error_message) := r in
        v <- (if success && enable_verification self then
                print (Py.nl ++ "Script executed without errors.")%string ;;
                verified <- input ASK_VERIFIED ;;
                let verified_success :=
                  Py.in_yes_y (Py.lower (Py.strip verified)) in
                if negb verified_success then
                  feedback <- input ASK_FEEDBACK ;;
                  ret (Some verified_success, Some (Py.strip feedback))
                else ret (Some verified_success, None)
              else ret (None, None)) ;;
        let '(verified_success, feedback) := v in
        execute (fun now d =>
                   save_solution now d cmd script success verified_success
                                 error_message feedback) ;;
        (if success then
           print (Py.nl ++ "Script executed successfully!")%string ;;
           match verified_success with
           | Some false =>
               print "But the result wasn't what you wanted." ;;
               print ("Feedback: " ++ fmt feedback)%string
           | _ => ret tt
           end
         else print (execution_failed error_message)) ;;
        ret success
  end.

(** *** The course of a session *)

(** The hint, the outcome of the generation and the script shown to the
    user when the table is [t]. *)
Definition hint (t : Table) (cmd : string) : option string :=
  option_map applescript (select_successful t cmd).

Definition generated (t : Table) (cmd : string) : string + string :=
  chat_completion (messages_for cmd (hint t cmd)).

Definition shown_script (t : Table) (cmd : string) : option string :=
  match generated t cmd with
  | inr raw => match Py.strip raw with
               | EmptyString => None
               | script => Some script
               end
  | inl _ => None
  end.

(** The sessions that end before the script is run: the generation fails,
    it yields an empty script, or the user does not approve. *)
Inductive aborts (cmd : string) (w : World) : Prop :=
| generation_failed (t : Table) (e : string) :
    db w = Some t -> generated t cmd = inl e -> aborts cmd w
| generation_empty (t : Table) (raw : string) :
    db w = Some t -> generated t cmd = inr raw ->
    Py.strip raw = EmptyString -> aborts cmd w
| approval_declined (t : Table) (script line : string) (rest : list string) :
    db w = Some t -> shown_script t cmd = Some script ->
    stdin w = line :: rest -> affirmative line = false -> aborts cmd w.

(** How the verification fields of a record came about, given the events
    of the session. *)
Inductive verification (ok : bool) (evs : list Event)
  : option bool -> option string -> Prop :=
| not_asked :
    ok && enable_verification self = false ->
    verification ok evs None None
| confirmed (answer : string) :
    ok && enable_verification self = true ->
    In (Input ASK_VERIFIED (Some answer)) evs ->
    affirmative answer = true ->
    verification ok evs (Some true) None
| rejected (answer fb : string) :
    ok && enable_verification self = true ->
    In (Input ASK_VERIFIED (Some answer)) evs ->
    affirmative answer = false ->
    In (Input ASK_FEEDBACK (Some fb)) evs ->
    verification ok evs (Some false) (Some (Py.strip fb)).

(** A session either leaves the database as it was, or it has run the
    script and appended one row. *)
Inductive session (cmd : string) (w : World) (r : Result bool) : Prop :=
| no_record :
    db (final_world r) = db w -> session cmd w r
| one_record (t : Table) (script : string) (evs : list Event)
             (v : option bool) (fb : option string) (w' : World) :
    db w = Some t ->
    shown_script t cmd = Some script ->
    r = Returned (fst (exec_outcome (osascript script))) w' ->
    db w' = Some (insert (clock w) t cmd script
                         (fst (exec_outcome (osascript script))) v
                         (snd (exec_outcome (osascript script))) fb) ->
    trace w' = trace w ++ evs ->
    In (Osascript script) evs ->
    verification (fst (exec_outcome (osascript script))) evs v fb ->
    session cmd w r.

End Agent.

(** *** Concrete collaborators and worlds *)

Module Example.

(** A response wrapped in a markdown code block. *)
Definition fenced : string :=
  ("```applescript" ++ Py.nl ++ "beep" ++ Py.nl ++ "```")%string.

Definition chat_fenced (_ : list Message) : string + string := inr fenced.
Definition chat_beep (_ : list Message) : string + string := inr "beep".
Definition chat_blank (_ : list Message) : string + string := inr "   ".
Definition chat_down (_ : list Message) : string + string :=
  inl "Connection error.".

Definition denied : string :=
  "execution error: Not authorised to send Apple events to Numbers. (-1743)".

Definition run_ok (_ : string) : ProcResult := Completed 0 "".
Definition run_denied (_ : string) : ProcResult := Completed 1 denied.
(** A script that writes the text to its error stream and exits with 0. *)
Definition run_logged (_ : string) : ProcResult := Completed 0 denied.

Definition plain : ScriptLearningAgent := mkAgent "script_solutions.db" false.
Definition verifying : ScriptLearningAgent := mkAgent "script_solutions.db" true.

(** A new database after [__init__], the clock at 7, and the lines the
    user will type. *)
Definition world (typed : list string) : World :=
  mkWorld (Some empty_table) typed 7 [].

(** The session of a script that exits with 0 after writing the
    permission text to its error stream. *)
Definition logged_session : Result bool :=
  handle_command chat_beep run_logged plain "beep" (world ["yes"]).

End Example.

(* ------------------------------------------------------------------ *)
(** ** The rest of the agents *)

(** *** Reading the table *)

(** The arguments and the time of the [save_solution] call that wrote a
    row. *)
Definition attempt_of (r : Solution) : Attempt :=
  mkAttempt (timestamp r) (command r) (applescript r) (success r)
            (verified_success r) (error_message r) (feedback r).

(** What AUTOINCREMENT maintains: the rowids grow along the table and none
    exceeds the counter. *)
Definition well_formed (t : Table) : Prop :=
  StronglySorted lt (map id (rows t))
  /\ Forall (fun r => id r <= seq t) (rows t).

(** The rows that are not marked as verified-failed. *)
Definition not_rejected (r : Solution) : bool :=
  match verified_success r with Some false => false | _ => true end.

(** *** Reading the trace *)

Definition is_chat (e : Event) : bool :=
  match e with ChatCompletion _ => true | _ => false end.

(** The lines that the [input] calls of a list of events have read. *)
Definition answers (evs : list Event) : list string :=
  flat_map (fun e => match e with Input _ (Some line) => [line] | _ => [] end)
           evs.

(** *** The interactive loop ([main], [record_audio], [transcribe_audio]) *)

(** Where [record_audio] can fail: before it announces the recording, while
    it reads from the microphone, or when it writes the file. *)
Inductive Stage : Type := Opening | Reading | Writing.

Inductive Recording : Type :=
| Recorded
| RecordingRaised (stage : Stage) (msg : string).

Definition RECORD_SECONDS : nat := 5.
Definition WAVE_OUTPUT_FILENAME : string := "temp.wav".

(** [str(n)] for a natural number. *)
Definition str_of_nat (n : nat) : string :=
  NilEmpty.string_of_uint (Nat.to_uint n).

Definition ASK_MODE : string :=
  (Py.nl ++ "Type 'speak' to record audio, 'type' to enter text, or 'quit' to exit: ")%string.
Definition ASK_COMMAND : string := (Py.nl ++ "Enter your command: ")%string.

(** A round of the loop read this line as its mode. *)
Definition chose (mode line : string) : Prop :=
  Py.lower (Py.strip line) = mode.

Section Loop.

(** The microphone with the sound library, the transcription service and
    the wall clock; what they do may depend on everything that happened
    before.  Each call returns, with a result or with an exception; a call
    that never returns is not covered. *)
Variable microphone : World -> Recording.
Variable transcription : string -> World -> string + string.
Variable wall_clock : World -> nat.

(** [agent.handle_command] *)
Variable handle : string -> M bool.

Definition record_audio (duration : nat) : M bool :=
  fun w =>
    let recording :=
      print ("Recording for " ++ str_of_nat duration ++ " seconds...")%string
    in
    let failed (e : string) :=
      print ("Error recording audio: " ++ e)%string ;; ret false in
    match microphone w with
    | Recorded =>
        (recording ;; print "Finished recording." ;; ret true) w
    | RecordingRaised Opening e => failed e w
    | RecordingRaised Reading e => (recording ;; failed e) w
    | RecordingRaised Writing e =>
        (recording ;; print "Finished recording." ;; failed e) w
    end.

Definition transcribe_audio (filename : string) : M (option string) :=
  fun w =>
    match transcription filename w with
    | inr text => ret (Some text) w
    | inl e => (print ("Error transcribing audio: " ++ e)%string ;; ret None) w
    end.

(** Time passes: at the start of a round the clock shows what the wall
    clock shows then. *)
Definition tick : M unit :=
  fun w => Returned tt (mkWorld (db w) (stdin w) (wall_clock w) (trace w)).

(** The body of [while True:], with [continue] for the rounds that
    follow. *)
Definition round (continue : M (option unit)) : M (option unit) :=
  tick ;;
  mode <- input ASK_MODE ;;
  let mode := Py.lower (Py.strip mode) in
  if (mode =? "quit")%string then
    print "Exiting." ;; ret (Some tt)
  else if (mode =? "speak")%string then
    heard <- record_audio RECORD_SECONDS ;;
    if negb heard then continue
    else
      command <- transcribe_audio WAVE_OUTPUT_FILENAME ;;
      match command with
      | None | Some EmptyString => continue
      | Some command =>
          print (Py.nl ++ "Transcribed Text: " ++ command)%string ;;
          handle command ;;
          continue
      end
  else if (mode =? "type")%string then
    command <- input ASK_COMMAND ;;
    handle command ;;
    continue
  else
    print "Invalid option." ;; continue.

(** The loop; [None] when the rounds allowed by [fuel] are used up,
    [Some tt] after [break]. *)
Fixpoint main_loop (fuel : nat) : M (option unit) :=
  match fuel with
  | O => ret None
  | S fuel' => round (main_loop fuel')
  end.

End Loop.

(** *** class ScriptLearningAgent (v1)

    The first generation has no verification and sends no hint.  Its
    SELECT and INSERT name only columns that both schemas have; they are
    given here as they run on the table with the columns of v2, where the
    INSERT of v1 leaves [verified_success] and [feedback] NULL.  The table
    that v1 creates for itself has six columns and is not a [Database]
    (the v2 statements fail on it), so the start-up of v1 and its [main]
    are not given. *)
Module V1Agent.
Section Agent.

Variable chat_completion : list Message -> string + string.
Variable osascript : string -> ProcResult.

(** [INSERT INTO solutions (command, applescript, success, error_message)] *)
Definition save_solution (now : nat) (d : Database) (cmd script : string)
    (ok : bool) (err : option string) : exn + Database :=
  match d with
  | None => inl no_such_table
  | Some t => inr (Some (insert now t cmd script ok None err None))
  end.

Definition find_successful_solution (d : Database) (cmd : string)
  : exn + option string :=
  match d with
  | None => inl no_such_table
  | Some t => inr (V1.find_successful_solution (map v1_view (rows t)) cmd)
  end.

Definition messages_for (cmd : string) : list Message :=
  [mkMessage system SYSTEM_PROMPT;
   mkMessage user ("Generate AppleScript code to: " ++ cmd)%string].

Definition generate_applescript (cmd : string) : M (option string) :=
  let messages := messages_for cmd in
  log (ChatCompletion messages) ;;
  match chat_completion messages with
  | inr content => ret (Some (Py.strip content))
  | inl e => print ("Error generating AppleScript: " ++ e)%string ;; ret None
  end.

(** [execute_applescript] is the same text in both generations. *)
Definition handle_command (cmd : string) : M bool :=
  script <- generate_applescript cmd ;;
  match script with
  | None | Some EmptyString => ret false
  | Some script =>
      print (Py.nl ++ "Generated AppleScript:" ++ Py.nl)%string ;;
      print script ;;
      approval <- input ASK_APPROVAL ;;
      if negb (Py.in_yes_y (Py.lower (Py.strip approval))) then ret false
      else
        r <- execute_applescript osascript script ;;
        let '(success, error_message) := r in
        execute (fun now d =>
                   save_solution now d cmd script success error_message) ;;
        (if success then
           print (Py.nl ++ "Script executed successfully!")%string
         else print (execution_failed error_message)) ;;
        ret success
  end.

End Agent.
End V1Agent.

(** *** The agent of [ai_script_agent_whisper.py]

    It keeps no record.  Its loop is the loop above; what it does with a
    command, written in the body of the loop, is [session]. *)
Module WhisperAgent.

(** The completed process with its two streams, or the exception. *)
Inductive Run : Type :=
| Completed (returncode : Z) (stdout stderr : string)
| RunRaised (msg : string).

Definition SYSTEM : string :=
  "You are an expert AppleScript developer. Generate clean, working AppleScript code for any macOS automation task. Handle application-specific requirements and proper object hierarchies automatically.".

Definition prompt_for (user_command : string) : string :=
  ("You are an assistant that translates natural language commands into AppleScript code. "
   ++ "Only provide the AppleScript code and nothing else. "
   ++ "Do NOT wrap the code in markdown code blocks (```) or any other formatting. "
   ++ "Focus on common macOS automation tasks like:" ++ Py.nl
   ++ "- Opening applications" ++ Py.nl
   ++ "- Controlling system settings" ++ Py.nl
   ++ "- Managing windows" ++ Py.nl
   ++ "- Basic file operations" ++ Py.nl
   ++ "- System notifications" ++ Py.nl
   ++ "- Controlling applications like Numbers, Safari, Finder, etc."
   ++ Py.nl ++ Py.nl
   ++ "Important:" ++ Py.nl
   ++ "1. Generate only the AppleScript code, no explanations" ++ Py.nl
   ++ "2. Use proper AppleScript syntax and structure" ++ Py.nl
   ++ "3. Include necessary delays and activation commands" ++ Py.nl
   ++ "4. Handle application-specific requirements (like Numbers' table structure)"
   ++ Py.nl ++ Py.nl
   ++ "Command: " ++ user_command ++ Py.nl ++ Py.nl
   ++ "AppleScript Code:")%string.

Definition messages_for (user_command : string) : list Message :=
  [mkMessage system SYSTEM; mkMessage user (prompt_for user_command)].

Definition PERMISSION_HELP : list string := [
  (Py.nl ++ "Permission required! To allow this script to control applications, please:")%string;
  "1. Open System Settings";
  "2. Go to Privacy & Security > Automation";
  "3. Find Python or Terminal in the list";
  "4. Enable the checkbox for the application you want to control (e.g., Numbers)";
  (Py.nl ++ "After granting permission, try running the command again.")%string ].

Section Agent.

Variable chat_completion : list Message -> string + string.
Variable osascript : string -> Run.

Definition generate_applescript (user_command : string) : M (option string) :=
  let messages := messages_for user_command in
  log (ChatCompletion messages) ;;
  match chat_completion messages with
  | inr content => ret (Some (Whisper.clean_response content))
  | inl e => print ("Error generating AppleScript: " ++ e)%string ;; ret None
  end.

Definition execute_applescript (script : string) : M bool :=
  log (Osascript script) ;;
  match osascript script with
  | Completed returncode stdout stderr =>
      if (returncode =? 0)%Z then
        print (Py.nl ++ "Script executed successfully. Output:")%string ;;
        print stdout ;;
        ret true
      else
        let error_msg := stderr in
        if Py.contains NOT_AUTHORISED error_msg then
          print_all PERMISSION_HELP ;; ret false
        else
          print (Py.nl ++ "Error executing script:")%string ;;
          print error_msg ;;
          ret false
  | RunRaised e =>
      print (Py.nl ++ "Error executing script: " ++ e)%string ;; ret false
  end.

(** The loop's body from [generate_applescript(user_command)] on; the value
    (did a script run without error) is not used by the loop. *)
Definition session (user_command : string) : M bool :=
  applescript_code <- generate_applescript user_command ;;
  match applescript_code with
  | None | Some EmptyString => ret false
  | Some applescript_code =>
      print (Py.nl ++ "Generated AppleScript:" ++ Py.nl)%string ;;
      print applescript_code ;;
      approval <- input ASK_APPROVAL ;;
      if Py.in_yes_y (Py.lower (Py.strip approval)) then
        execute_applescript applescript_code
      else
        print "Execution cancelled." ;; ret false
  end.

Definition main (microphone : World -> Recording)
    (transcription : string -> World -> string + string)
    (wall_clock : World -> nat) (fuel : nat) : M (option unit) :=
  main_loop microphone transcription wall_clock session fuel.

End Agent.
End WhisperAgent.

(** [main] of v2: the flag [--verify] of the command line, the agent on the
    default database file, and the loop.  The external calls are functions
    that return; the file is a [Database], so not one left by v1. *)
Definition main (chat_completion : list Message -> string + string)
    (osascript : string -> ProcResult) (microphone : World -> Recording)
    (transcription : string -> World -> string + string)
    (wall_clock : World -> nat) (verify : bool) (fuel : nat)
  : M (option unit) :=
  let agent := mkAgent "script_solutions.db" verify in
  init ;;
  main_loop microphone transcription wall_clock
            (handle_command chat_completion osascript agent) fuel.

(** *** Concrete surroundings for the loop *)

Module LoopExample.

Definition microphone (_ : World) : Recording := Recorded.
Definition transcription (_ : string) (_ : World) : string + string :=
  inr "beep".
(** A clock that moves on by one second with every event. *)
Definition wall_clock (w : World) : nat := List.length (trace w).

(** The user types a command, approves the script and quits. *)
Definition typed : list string := ["type"; "beep"; "yes"; " Quit "].

(** A run of [osascript] that succeeds silently, with both streams. *)
Definition run_quietly (_ : string) : WhisperAgent.Run :=
  WhisperAgent.Completed 0 "" "".

End LoopExample.

(** *** What a run may do to the world *)

(** From [w] to [w']: lines were read from the front of the input, events
    were added to the trace, and a table that existed still exists, with its
    rows in front and well formed as before; no more rows were added than
    scripts were run, and no more scripts were run than the chat service was
    called. *)
Definition grows (w w' : World) : Prop :=
  (exists read, stdin w = read ++ stdin w')
  /\ exists evs,
       trace w' = trace w ++ evs
       /\ forall t, db w = Some t ->
          exists t' added,
            db w' = Some t'
            /\ rows t' = rows t ++ added
            /\ List.length added <= List.length (filter is_osascript evs)
            /\ List.length (filter is_osascript evs)
               <= List.length (filter is_chat evs)
            /\ (well_formed t -> well_formed t').

(** How the loop can end: by [break] right after a line that reads as
    "quit" and the farewell, or by the end of the input; it does not run out
    of rounds. *)
Definition ended (r : Result (option unit)) : Prop :=
  match r with
  | Returned (Some _) w' =>
      exists evs line,
        trace w' = evs ++ [Input ASK_MODE (Some line); Print "Exiting."]
        /\ chose "quit" line
  | Returned None _ => False
  | Raised e w' => e = EOFError /\ stdin w' = []
  end.

(** What the rounds [k] do on every world that is ready and has fewer than
    [n] lines left to read. *)
Definition loop_spec (ready : World -> Prop) (n : nat)
    (k : M (option unit)) : Prop :=
  forall w, List.length (stdin w) < n -> ready w ->
            grows w (final_world (k w)) /\ ended (k w).

Definition finished (r : Result (option unit)) : Prop :=
  match r with Returned None _ => False | _ => True end.

(** *** Comparing runs *)

(** What a run returned or raised, without the world. *)
Definition outcome {A} (r : Result A) : exn + A :=
  match r with Returned a _ => inr a | Raised e _ => inl e end.

(** The world with another database file. *)
Definition with_db (w : World) (d : Database) : World :=
  mkWorld d (stdin w) (clock w) (trace w).

(* ------------------------------------------------------------------ *)
(** * Properties *)

(** ** The top-1 selection *)

Section OrderByFacts.
Variable row : Type.
Variable key : row -> nat.

Let top1 := Sql.top1 key.

Lemma top1_some (b : row) (l : list row) :
  exists r, top1 (Some b) l = Some r.
Proof.
  revert b; induction l as [|x l IH]; intros b; simpl.
  - now exists b.
  - destruct (key b <? key x)%nat; apply IH.
Qed.

Lemma top1_member (b : row) (l : list row) (r : row) :
  top1 (Some b) l = Some r -> r = b \/ In r l.
Proof.
  revert b; induction l as [|x l IH]; intros b; simpl.
  - intros [= ->]; now left.
  - destruct (key b <? key x)%nat; intros H; apply IH in H;
      destruct H as [-> | H]; auto.
Qed.

Lemma top1_greatest (b : row) (l : list row) (r : row) :
  top1 (Some b) l = Some r ->
  key b <= key r /\ forall x, In x l -> key x <= key r.
Proof.
  revert b; induction l as [|x l IH]; intros b; simpl.
  - intros [= ->]; split; [lia | contradiction].
  - destruct (key b <? key x)%nat eqn:E; intros H;
      destruct (IH _ H) as [H1 H2];
      [apply Nat.ltb_lt in E | apply Nat.ltb_ge in E];
      (split; [lia | intros y [<- | Hy]; [lia | auto]]).
Qed.

(** The selection of a non-empty result set is one of its rows, and no row
    of the set is more recent. *)
Lemma order_by_desc_limit_1_some (l : list row) (r : row) :
  Sql.order_by_desc_limit_1 key l = Some r ->
  In r l /\ forall x, In x l -> key x <= key r.
Proof.
  unfold Sql.order_by_desc_limit_1.
  destruct l as [|x l]; simpl; [discriminate|].
  intros H. split.
  - destruct (top1_member _ _ H) as [-> | Hin]; auto.
  - destruct (top1_greatest _ _ H) as [H1 H2].
    intros y [<- | Hy]; auto.
Qed.

Lemma order_by_desc_limit_1_none (l : list row) :
  Sql.order_by_desc_limit_1 key l = None <-> l = [].
Proof.
  unfold Sql.order_by_desc_limit_1.
  destruct l as [|x l]; simpl; [tauto|].
  destruct (top1_some x l) as [r Hr]. fold top1. rewrite Hr.
  split; discriminate.
Qed.

Lemma last_cons (l : list row) (x d : row) : last (x :: l) d = last l x.
Proof.
  revert x d; induction l as [|y l IH]; intros x d; [reflexivity|].
  change (last (x :: y :: l) d) with (last (y :: l) d).
  now rewrite !IH.
Qed.

(** When the keys grow strictly along the scan, the last row wins. *)
Lemma top1_increasing (b : row) (l : list row) :
  StronglySorted (fun x y => key x < key y) (b :: l) ->
  top1 (Some b) l = Some (last l b).
Proof.
  revert b; induction l as [|x l IH]; intros b Hs; [reflexivity|].
  inversion Hs as [|? ? Hl Hb]; subst.
  assert (E : (key b <? key x)%nat = true)
    by (apply Nat.ltb_lt; inversion Hb; assumption).
  cbn [top1 Sql.top1]. rewrite E. fold top1.
  rewrite (IH x Hl). now rewrite last_cons.
Qed.

Lemma order_by_desc_limit_1_increasing (l : list row) :
  StronglySorted (fun x y => key x < key y) l ->
  Sql.order_by_desc_limit_1 key l = hd_error (rev l).
Proof.
  unfold Sql.order_by_desc_limit_1.
  destruct l as [|b l]; [reflexivity|]. intros Hs.
  cbn [Sql.top1]. fold top1. rewrite (top1_increasing Hs).
  clear Hs. revert b. induction l as [|x l IH] using rev_ind; intros b.
  - reflexivity.
  - rewrite last_last. change (b :: l ++ [x]) with ((b :: l) ++ [x]).
    rewrite rev_unit. reflexivity.
Qed.

(** The selection commutes with a change of row type that keeps the key. *)
Lemma top1_map (row' : Type) (key' : row' -> nat) (f : row -> row')
      (best : option row) (l : list row) :
  (forall x, key' (f x) = key x) ->
  Sql.top1 key' (option_map f best) (map f l) = option_map f (top1 best l).
Proof.
  intros Hk. revert best; induction l as [|x l IH]; intros best; simpl.
  - reflexivity.
  - destruct best as [b|]; simpl.
    + rewrite !Hk. rewrite <- IH. destruct (key b <? key x)%nat; reflexivity.
    + rewrite <- IH. reflexivity.
Qed.

End OrderByFacts.

(** ** The WHERE clause and the selection policy *)

Lemma where_successful_qualifies (cmd : string) (r : Solution) :
  Sql.holds (where_successful cmd r) = true <-> qualifies cmd r.
Proof.
  unfold where_successful, qualifies, Sql.eq_text, Sql.eq_one, Sql.is_null.
  destruct (String.eqb_spec (command r) cmd) as [E | E];
    destruct (success r); destruct (verified_success r) as [[|]|]; simpl;
    split; intros H; try discriminate; try tauto;
    try (destruct H as (H1 & H2 & [H3 | H3]); congruence).
Qed.

Lemma filter_strongly_sorted (A : Type) (R : A -> A -> Prop) (p : A -> bool)
      (l : list A) :
  StronglySorted R l -> StronglySorted R (filter p l).
Proof.
  induction 1 as [|x l Hs IH Hx]; simpl; [constructor|].
  destruct (p x); [|assumption].
  constructor; [assumption|].
  rewrite Forall_forall in *. intros y Hy. apply filter_In in Hy. apply Hx, Hy.
Qed.

Lemma strongly_sorted_weaken (A : Type) (R S : A -> A -> Prop) (l : list A) :
  (forall a b, R a b -> S a b) -> StronglySorted R l -> StronglySorted S l.
Proof.
  intros HRS. induction 1 as [|x l Hs IH Hx]; constructor; [assumption|].
  eapply Forall_impl; [|exact Hx]. apply HRS.
Qed.

Lemma strongly_sorted_compare (A : Type) (R : A -> A -> Prop) (l : list A)
      (a b : A) :
  StronglySorted R l -> In a l -> In b l -> a = b \/ R a b \/ R b a.
Proof.
  induction 1 as [|x l Hs IH Hx]; simpl; [contradiction|].
  rewrite Forall_forall in Hx.
  intros [<- | Ha] [<- | Hb]; auto.
Qed.

Lemma filter_map_agree (A B : Type) (f : A -> B) (p : A -> bool)
      (q : B -> bool) (l : list A) :
  (forall x, In x l -> q (f x) = p x) ->
  filter q (map f l) = map f (filter p l).
Proof.
  induction l as [|x l IH]; intros H; simpl; [reflexivity|].
  rewrite (H x (or_introl eq_refl)).
  rewrite IH by (intros y Hy; apply H; now right).
  destruct (p x); reflexivity.
Qed.

(** C1. For every store and every command, [find_successful_solution]
    returns the script of a row whose command is exactly the queried string,
    whose success flag is set and whose verification is true or unknown
    (never false), and no such row has a greater timestamp; it returns
    [None] exactly when no row meets the three conditions. *)
Theorem find_successful_solution_policy (t : Table) (cmd : string) :
  exists res,
    find_successful_solution (Some t) cmd = inr res /\
    match res with
    | Some script =>
        exists r, In r (rows t) /\ applescript r = script /\
                  qualifies cmd r /\ verified_success r <> Some false /\
                  (forall r', In r' (rows t) -> qualifies cmd r' ->
                              timestamp r' <= timestamp r)
    | None => forall r, In r (rows t) -> ~ qualifies cmd r
    end.
Proof.
  unfold find_successful_solution, select_successful.
  eexists; split; [reflexivity|].
  destruct (Sql.order_by_desc_limit_1 _ _) as [r|] eqn:E; simpl.
  - apply order_by_desc_limit_1_some in E. destruct E as [Hin Hmax].
    apply filter_In in Hin. destruct Hin as [Hin Hq].
    apply where_successful_qualifies in Hq.
    exists r. repeat split; try assumption; try apply Hq.
    + destruct Hq as (_ & _ & [H | H]); rewrite H; discriminate.
    + intros r' Hin' Hq'. apply Hmax. apply filter_In. split; [assumption|].
      now apply where_successful_qualifies.
  - apply order_by_desc_limit_1_none in E.
    intros r Hin Hq. apply where_successful_qualifies in Hq.
    assert (Hf : In r (filter (fun r => Sql.holds (where_successful cmd r))
                              (rows t))) by (apply filter_In; auto).
    rewrite E in Hf. contradiction.
Qed.

(** The retrieval on small tables. *)

Example retrieval_without_attempts :
  find_successful_solution (setup_database None) "open Safari" = inr None.
Proof. reflexivity. Qed.

Example retrieval_prefers_the_newer_attempt :
  find_successful_solution
    (Some (mkTable [mkSolution 1 "open Safari" "A1" true None None None 10;
                    mkSolution 2 "open Safari" "A2" true (Some true) None None
                               20] 2))
    "open Safari"
  = inr (Some "A2").
Proof. reflexivity. Qed.

Example retrieval_skips_verified_failures :
  find_successful_solution
    (Some (mkTable [mkSolution 1 "open Safari" "A" true (Some false) None
                               (Some "wrong window") 10] 1))
    "open Safari"
  = inr None.
Proof. reflexivity. Qed.

Example retrieval_is_case_sensitive :
  find_successful_solution
    (Some (mkTable [mkSolution 1 "open Safari" "A" true None None None 10] 1))
    "Open Safari"
  = inr None.
Proof. reflexivity. Qed.

Example retrieval_without_table :
  find_successful_solution None "open Safari" = inl no_such_table.
Proof. reflexivity. Qed.

(** ** Appending and retrieving *)

Lemma save_all_rows (l : list Attempt) (t : Table) :
  save_all (Some t) l
  = inr (Some (mkTable (rows t ++ rows_from (seq t) l)
                       (seq t + List.length l))).
Proof.
  revert t; induction l as [|a l IH]; intros [rs n]; simpl.
  - now rewrite app_nil_r, Nat.add_0_r.
  - rewrite IH. unfold insert; simpl.
    now rewrite <- app_assoc, Nat.add_succ_r.
Qed.

Lemma rows_from_ids (l : list Attempt) (i : nat) :
  Forall (fun r => i < id r) (rows_from i l).
Proof.
  revert i; induction l as [|a l IH]; intros i; simpl; constructor.
  - simpl; lia.
  - eapply Forall_impl; [|apply IH]. simpl; intros; lia.
Qed.

Lemma rows_from_times (l : list Attempt) (i n : nat) :
  Forall (fun m => n < m) (map at_time l) ->
  Forall (fun r => n < timestamp r) (rows_from i l).
Proof.
  revert i; induction l as [|a l IH]; intros i H; simpl; [constructor|].
  inversion H; subst. constructor; [assumption | now apply IH].
Qed.

(** With strictly later clock readings, rowids and timestamps grow together
    along the table. *)
Lemma rows_from_sorted (l : list Attempt) (i : nat) :
  StronglySorted lt (map at_time l) ->
  StronglySorted (fun a b => id a < id b /\ timestamp a < timestamp b)
                 (rows_from i l).
Proof.
  revert i; induction l as [|a l IH]; intros i H; simpl; [constructor|].
  inversion H as [|? ? Hl Ha]; subst. constructor; [now apply IH|].
  pose proof (rows_from_ids l (S i)) as Hid.
  pose proof (rows_from_times l (S i) Ha) as Ht.
  rewrite Forall_forall in *. intros r Hr. simpl. split; auto.
Qed.

Lemma rows_from_scripts (cmd : string) (l : list Attempt) (i : nat) :
  map applescript
      (filter (fun r => Sql.holds (where_successful cmd r)) (rows_from i l))
  = map at_script (filter (attempt_qualifies cmd) l).
Proof.
  revert i; induction l as [|a l IH]; intros i; [reflexivity|].
  cbn [rows_from filter].
  match goal with
  | |- context [Sql.holds (where_successful cmd ?r)] =>
      assert (E : Sql.holds (where_successful cmd r) = attempt_qualifies cmd a)
  end.
  { unfold where_successful, attempt_qualifies, Sql.eq_text, Sql.eq_one,
      Sql.is_null; simpl.
    destruct (at_command a =? cmd)%string; destruct (at_success a);
      destruct (at_verified a) as [[|]|]; reflexivity. }
  rewrite E. destruct (attempt_qualifies cmd a); cbn [map];
    now rewrite IH.
Qed.

Lemma latest_appended_scripts (cmd : string) (l : list Attempt) :
  latest_appended cmd l
  = hd_error (rev (map at_script (filter (attempt_qualifies cmd) l))).
Proof.
  unfold latest_appended. rewrite <- map_rev.
  destruct (rev _); reflexivity.
Qed.

Lemma hd_error_map (A B : Type) (f : A -> B) (l : list A) :
  hd_error (map f l) = option_map f (hd_error l).
Proof. destruct l; reflexivity. Qed.

(** C2 (as amended). When every attempt is appended at a strictly later
    clock reading than the one before, a retrieval returns the script of the
    qualifying attempt that was appended last, and in the table the order of
    the rowids and the order of the timestamps agree. *)
Theorem retrieval_returns_latest_appended (l : list Attempt) (cmd : string) :
  StronglySorted lt (map at_time l) ->
  retrieve_after l cmd = inr (latest_appended cmd l) /\
  exists t, save_all (setup_database None) l = inr (Some t) /\
            forall r1 r2, In r1 (rows t) -> In r2 (rows t) ->
                          (id r1 < id r2 <-> timestamp r1 < timestamp r2).
Proof.
  intros Hs. unfold retrieve_after. simpl setup_database.
  rewrite save_all_rows. simpl rows. simpl seq.
  pose proof (@rows_from_sorted l 0 Hs) as Hrows.
  split.
  - unfold find_successful_solution, select_successful. simpl rows.
    rewrite order_by_desc_limit_1_increasing.
    + rewrite <- hd_error_map, map_rev, rows_from_scripts.
      now rewrite latest_appended_scripts.
    + apply filter_strongly_sorted.
      eapply strongly_sorted_weaken; [|exact Hrows]. simpl; intros; tauto.
  - eexists; split; [reflexivity|]. simpl rows.
    intros r1 r2 H1 H2.
    destruct (@strongly_sorted_compare _ _ _ r1 r2 Hrows H1 H2) as [<- | [H | H]]; lia.
Qed.

Lemma retrieval_returns_latest_appended_witness :
  retrieve_after [mkAttempt 10 "open Safari" "A" true None None None;
                  mkAttempt 11 "open Safari" "B" true (Some true) None None]
                 "open Safari"
  = inr (Some "B").
Proof.
  apply (retrieval_returns_latest_appended
           [mkAttempt 10 "open Safari" "A" true None None None;
            mkAttempt 11 "open Safari" "B" true (Some true) None None]
           "open Safari").
  simpl. repeat constructor.
Defined.

(** Two qualifying attempts saved within the same second: the retrieval
    returns the older script although a newer one qualifies. *)
Lemma same_second_returns_older_attempt :
  retrieve_after [mkAttempt 10 "open Safari" "A" true None None None;
                  mkAttempt 10 "open Safari" "B" true None None None]
                 "open Safari"
  = inr (Some "A")
  /\ latest_appended "open Safari"
       [mkAttempt 10 "open Safari" "A" true None None None;
        mkAttempt 10 "open Safari" "B" true None None None]
     = Some "B".
Proof. split; reflexivity. Qed.

(** The same when the wall clock was set back between the two writes. *)
Lemma clock_set_back_returns_older_attempt :
  retrieve_after [mkAttempt 10 "open Safari" "A" true None None None;
                  mkAttempt 9 "open Safari" "B" true None None None]
                 "open Safari"
  = inr (Some "A").
Proof. reflexivity. Qed.

(** ** The two generations of the retrieval *)

(** C10. On a store without a verified-failed attempt, v1's retrieval (on
    the columns it knows) and v2's retrieval return the same result for
    every command. *)
Theorem v1_v2_retrieval_agree (t : Table) (cmd : string) :
  (forall r, In r (rows t) -> verified_success r <> Some false) ->
  find_successful_solution (Some t) cmd
  = inr (V1.find_successful_solution (map v1_view (rows t)) cmd).
Proof.
  intros H. unfold find_successful_solution, V1.find_successful_solution,
              select_successful, Sql.order_by_desc_limit_1.
  f_equal.
  rewrite (@filter_map_agree _ _ v1_view
             (fun r => Sql.holds (where_successful cmd r))).
  - change (@None V1.Solution) with (option_map v1_view None).
    rewrite (@top1_map _ timestamp _ V1.timestamp v1_view)
      by reflexivity.
    destruct (Sql.top1 _ _ _); reflexivity.
  - intros r Hr. specialize (H r Hr).
    unfold where_successful, V1.where_successful, Sql.eq_text, Sql.eq_one,
      Sql.is_null; simpl.
    destruct (command r =? cmd)%string; destruct (success r);
      destruct (verified_success r) as [[|]|]; try reflexivity; congruence.
Qed.

Lemma v1_v2_retrieval_agree_witness :
  find_successful_solution
    (Some (mkTable [mkSolution 1 "open Safari" "A" true None None None 10;
                    mkSolution 2 "open Safari" "B" false None (Some "e") None 11]
                   2)) "open Safari"
  = inr (Some "A").
Proof.
  rewrite v1_v2_retrieval_agree.
  - reflexivity.
  - simpl. intros r [<- | [<- | []]]; discriminate.
Defined.

(** ** Initialisation *)

(** C8. Whatever file the agent started on and whatever was saved since,
    the table exists and running [setup_database] again returns the very
    same database: every row is still there, unchanged, and so is the
    counter; at the level of the agent, [__init__] leaves such a world as it
    is. *)
Theorem setup_database_idempotent (db0 : Database) (l : list Attempt) :
  exists t,
    save_all (setup_database db0) l = inr (Some t) /\
    setup_database (Some t) = Some t /\
    setup_database (setup_database db0) = setup_database db0 /\
    forall w, db w = Some t -> init w = Returned tt w.
Proof.
  destruct db0 as [t0|]; simpl setup_database; rewrite save_all_rows;
    (eexists; repeat split; [];
     intros [d i c tr] Hd; simpl in Hd; subst d; reflexivity).
Qed.

(* ------------------------------------------------------------------ *)
(** ** Sessions *)

Lemma skipn_length_app (A : Type) (l l' : list A) :
  skipn (List.length l) (l ++ l') = l'.
Proof. induction l as [|x l IH]; simpl; auto. Qed.

Lemma new_events_app (w w' : World) (evs : list Event) :
  trace w' = trace w ++ evs -> new_events w w' = evs.
Proof. unfold new_events. intros ->. apply skipn_length_app. Qed.

Lemma recorded_unchanged (w w' : World) : db w' = db w -> recorded w w' = [].
Proof.
  unfold recorded, new_rows. intros ->. destruct (db w) as [t|]; [|reflexivity].
  rewrite <- (app_nil_r (rows t)) at 2. apply skipn_length_app.
Qed.

Lemma recorded_insert (w w' : World) (t : Table) (now : nat)
      (cmd script : string) (ok : bool) (v : option bool)
      (err fb : option string) :
  db w = Some t ->
  db w' = Some (insert now t cmd script ok v err fb) ->
  recorded w w' = [mkSolution (S (seq t)) cmd script ok v err fb now].
Proof.
  unfold recorded, new_rows, insert. intros -> ->. cbn [rows].
  apply skipn_length_app.
Qed.

Section AgentFacts.

Variable chat_completion : list Message -> string + string.
Variable osascript : string -> ProcResult.
Variable self : ScriptLearningAgent.

Abbreviation handle := (handle_command chat_completion osascript self).
Abbreviation shown := (shown_script chat_completion).
Abbreviation is_session := (session chat_completion osascript self).

Ltac run :=
  cbv beta iota zeta delta
    [handle_command generate_applescript
     execute_applescript print_all print log input query
     execute bind ret find_successful_solution save_solution final_world
     db stdin clock trace PERMISSION_HELP andb negb affirmative].

Ltac quiet := solve [apply no_record; reflexivity].

Ltac member := cbn [In app]; rewrite ?in_app_iff; cbn [In]; tauto.

Ltac outcome X :=
  rewrite X; cbv beta iota delta [exec_outcome fst snd];
  repeat match goal with
         | R : (_ =? _)%Z = _ |- _ => rewrite R
         end;
  cbv beta iota.

Ltac record X v :=
  eapply one_record;
  [ reflexivity
  | eassumption
  | outcome X; reflexivity
  | outcome X; reflexivity
  | cbn [trace]; rewrite <- !app_assoc; reflexivity
  | member
  | outcome X; v ].

Lemma shown_script_inv (t : Table) (cmd script : string) :
  shown t cmd = Some script ->
  exists raw a s, generated chat_completion t cmd = inr raw
                  /\ Py.strip raw = String a s /\ script = String a s.
Proof.
  unfold shown_script.
  destruct (generated chat_completion t cmd) as [e|raw]; [discriminate|].
  destruct (Py.strip raw) as [|a s] eqn:S; [discriminate|].
  intros [= <-]. now exists raw, a, s.
Qed.

(** Every run of [handle_command] is a session: it either leaves the
    database alone or appends exactly one row after the script was run. *)
Lemma handle_command_session (cmd : string) (w : World) :
  is_session cmd w (handle cmd w).
Proof.
  destruct w as [d i c tr]. run.
  destruct d as [t|]; [|quiet].
  change (option_map applescript (select_successful t cmd)) with (hint t cmd).
  destruct (chat_completion (messages_for cmd (hint t cmd))) as [e|raw] eqn:G;
    [quiet|].
  destruct (Py.strip raw) as [|a s] eqn:S; [quiet|].
  destruct i as [|line rest]; [quiet|].
  destruct (Py.in_yes_y (Py.lower (Py.strip line))) eqn:A; run; [|quiet].
  assert (Sh : shown t cmd = Some (String a s))
    by (unfold shown_script, generated; now rewrite G, S).
  destruct (osascript (String a s)) as [rc stderr|e] eqn:X.
  - destruct (rc =? 0)%Z eqn:R.
    + destruct (enable_verification self) eqn:V.
      * destruct rest as [|ans rest]; [quiet|].
        destruct (Py.in_yes_y (Py.lower (Py.strip ans))) eqn:Y; run.
        -- record X ltac:(apply confirmed with (answer := ans);
                          [now rewrite V | member | exact Y]).
        -- destruct rest as [|fb rest]; [quiet|].
           record X ltac:(apply rejected with (answer := ans);
                          [now rewrite V | member | exact Y | member]).
      * record X ltac:(apply not_asked; now rewrite V).
    + destruct (Py.contains NOT_AUTHORISED stderr); run;
        record X ltac:(apply not_asked; reflexivity).
  - record X ltac:(apply not_asked; reflexivity).
Qed.

(** What a session has recorded: nothing, or the one row of its run
    together with the way its verification fields were obtained. *)
Lemma session_recorded (cmd : string) (w : World) (r : Result bool) :
  is_session cmd w r ->
  recorded w (final_world r) = [] \/
  exists t script v fb,
    recorded w (final_world r)
    = [mkSolution (S (seq t)) cmd script
                  (fst (exec_outcome (osascript script))) v
                  (snd (exec_outcome (osascript script))) fb (clock w)]
    /\ verification self (fst (exec_outcome (osascript script)))
                    (new_events w (final_world r)) v fb.
Proof.
  intros [H | t script evs v fb w' Hd Hs Hr Hd' Ht Hin Hv].
  - left. now apply recorded_unchanged.
  - right. exists t, script, v, fb. subst r. cbn [final_world].
    rewrite new_events_app with (evs := evs) by exact Ht.
    split; [|assumption].
    eapply recorded_insert; eassumption.
Qed.

(** C4. A session in which the generation fails or yields an empty
    script, or in which the user does not approve the script, returns
    [False], leaves the database as it was and never runs the script; and
    in any session at all, the database changes only if [osascript] was
    invoked. *)
Theorem abort_writes_no_record (cmd : string) (w : World) :
  aborts chat_completion cmd w ->
  (exists w', handle cmd w = Returned false w' /\ db w' = db w
              /\ existsb is_osascript (new_events w w') = false)
  /\ (forall w0, db (final_world (handle cmd w0)) <> db w0 ->
                 existsb is_osascript
                         (new_events w0 (final_world (handle cmd w0)))
                 = true).
Proof.
  intros Hab. split.
  - destruct w as [d i c tr].
    destruct Hab as [t e Hd G | t raw Hd G S | t script line rest Hd Sh Hi A];
      cbn [db stdin] in *; subst.
    + eexists. run. fold (hint t cmd).
      unfold generated in G. rewrite G.
      repeat split. unfold new_events; cbn [trace].
      rewrite <- ?app_assoc, skipn_length_app. reflexivity.
    + eexists. run. fold (hint t cmd).
      unfold generated in G. rewrite G, S.
      repeat split. unfold new_events; cbn [trace].
      rewrite <- ?app_assoc, skipn_length_app. reflexivity.
    + destruct (shown_script_inv _ _ Sh) as (raw & a & s & G & S & ->).
      eexists. run. fold (hint t cmd).
      unfold generated in G. rewrite G, S. unfold affirmative in A.
      rewrite A. repeat split. unfold new_events; cbn [trace].
      rewrite <- ?app_assoc, skipn_length_app. reflexivity.
  - intros w0 Hneq.
    destruct (handle_command_session cmd w0)
      as [H | t script evs v fb w' Hd Hs Hr Hd' Ht Hin Hv];
      [contradiction|].
    rewrite Hr. cbn [final_world].
    rewrite new_events_app with (evs := evs) by exact Ht.
    apply existsb_exists. exists (Osascript script). now split.
Qed.

(** C5. In every row that a session records, the success flag is the
    outcome of running the recorded script; [verified_success] is NULL
    whenever the run failed or verification is disabled; it is true only
    if the user was asked and gave an affirmative answer; it is false only
    if the user was asked and gave another answer, and then the feedback
    prompt was answered and the stripped answer is stored in the row. *)
Theorem recorded_verified_field (cmd : string) (w : World) :
  Forall
    (fun r =>
       success r = fst (exec_outcome (osascript (applescript r)))
       /\ (success r = false \/ enable_verification self = false ->
           verified_success r = None)
       /\ (verified_success r = Some true ->
           exists answer,
             In (Input ASK_VERIFIED (Some answer))
                (new_events w (final_world (handle cmd w)))
             /\ affirmative answer = true)
       /\ (verified_success r = Some false ->
           exists answer fb,
             In (Input ASK_VERIFIED (Some answer))
                (new_events w (final_world (handle cmd w)))
             /\ affirmative answer = false
             /\ In (Input ASK_FEEDBACK (Some fb))
                   (new_events w (final_world (handle cmd w)))
             /\ feedback r = Some (Py.strip fb)))
    (recorded w (final_world (handle cmd w))).
Proof.
  destruct (session_recorded (handle_command_session cmd w))
    as [-> | (t & script & v & fb & -> & Hv)]; constructor; [|constructor].
  cbn [success applescript verified_success feedback].
  split; [reflexivity|].
  destruct Hv as [Hoff | answer Hon Hask Hyes | answer f Hon Hask Hno Hfb].
  - repeat split; try discriminate.
  - apply andb_true_iff in Hon. destruct Hon as [Hok Hen].
    repeat split; try discriminate.
    + intros [H | H]; congruence.
    + intros _. now exists answer.
  - apply andb_true_iff in Hon. destruct Hon as [Hok Hen].
    repeat split; try discriminate.
    + intros [H | H]; congruence.
    + intros _. now exists answer, f.
Qed.

(** C6. In every row that a session records, [error_message] is not NULL
    if and only if the success flag is false, and [feedback] is not NULL
    only when [verified_success] is false. *)
Theorem recorded_field_invariants (cmd : string) (w : World) :
  Forall
    (fun r =>
       (error_message r <> None <-> success r = false)
       /\ (feedback r <> None -> verified_success r = Some false))
    (recorded w (final_world (handle cmd w))).
Proof.
  destruct (session_recorded (handle_command_session cmd w))
    as [-> | (t & script & v & fb & -> & Hv)]; constructor; [|constructor].
  cbn [success error_message verified_success feedback].
  split.
  - unfold exec_outcome.
    destruct (osascript script) as [rc stderr|e];
      [destruct (rc =? 0)%Z|]; cbn [fst snd];
      split; intros H; congruence.
  - destruct Hv; intros Hfb'; congruence.
Qed.

(** C7 (as amended). When the run of the approved script ends with a
    non-zero return code and its error stream contains "Not authorised to
    send Apple events", the session returns [False], records one row with
    the success flag false and the error stream as its message, and prints
    the five lines of the permission help followed by the generic failure
    message. *)
Theorem permission_failure_recorded_and_explained
        (cmd : string) (w : World) (t : Table) (script line : string)
        (rest : list string) (rc : Z) (stderr : string) :
  db w = Some t ->
  shown t cmd = Some script ->
  stdin w = line :: rest ->
  affirmative line = true ->
  osascript script = Completed rc stderr ->
  rc <> 0%Z ->
  Py.contains NOT_AUTHORISED stderr = true ->
  exists w',
    handle cmd w = Returned false w'
    /\ recorded w w' = [mkSolution (S (seq t)) cmd script false None
                                   (Some stderr) None (clock w)]
    /\ prints (new_events w w')
       = [(Py.nl ++ "Generated AppleScript:" ++ Py.nl)%string; script]
         ++ PERMISSION_HELP ++ [execution_failed (Some stderr)].
Proof.
  intros Hd Sh Hi A X Hrc Hc.
  destruct (shown_script_inv _ _ Sh) as (raw & a & s & G & S & ->).
  apply Z.eqb_neq in Hrc. unfold affirmative in A. unfold generated in G.
  destruct w as [d i c tr]. cbn [db stdin clock] in *. subst d i.
  eexists. run. fold (hint t cmd). rewrite G, S, A, X, Hrc, Hc. run.
  split; [reflexivity|]. split.
  - unfold recorded, new_rows, insert. cbn [db rows seq].
    apply skipn_length_app.
  - unfold new_events. cbn [trace].
    rewrite <- ?app_assoc, skipn_length_app. reflexivity.
Qed.

(** C9 (as amended). Once the verification prompt is shown (the approved
    script ran with return code 0 and verification is enabled), every
    answer whose stripped, lower-cased form is neither "yes" nor "y" makes
    the session ask for feedback.  When the feedback prompt is answered,
    the row is recorded with [verified_success] false and the stripped
    feedback; when the input ends at the feedback prompt, the session
    raises [EOFError] and the table is left as it was.  Whatever is typed,
    no row recorded by such a session has [verified_success] NULL. *)
Theorem other_answer_records_verified_false
        (cmd : string) (w : World) (t : Table) (script line : string)
        (rest : list string) :
  db w = Some t ->
  shown t cmd = Some script ->
  stdin w = line :: rest ->
  affirmative line = true ->
  fst (exec_outcome (osascript script)) = true ->
  enable_verification self = true ->
  (forall answer fb rest',
      rest = answer :: fb :: rest' ->
      affirmative answer = false ->
      exists w',
        handle cmd w = Returned true w'
        /\ recorded w w' = [mkSolution (S (seq t)) cmd script true
                                       (Some false) None
                                       (Some (Py.strip fb)) (clock w)]
        /\ In (Input ASK_VERIFIED (Some answer)) (new_events w w')
        /\ In (Input ASK_FEEDBACK (Some fb)) (new_events w w'))
  /\ (forall answer,
        rest = [answer] ->
        affirmative answer = false ->
        exists w',
          handle cmd w = Raised EOFError w'
          /\ db w' = db w
          /\ In (Input ASK_VERIFIED (Some answer)) (new_events w w')
          /\ In (Input ASK_FEEDBACK None) (new_events w w'))
  /\ Forall (fun r => verified_success r <> None)
            (recorded w (final_world (handle cmd w))).
Proof.
  intros Hd Sh Hi A Hok Hen. split; [|split].
  - intros answer fb rest' -> Hno.
    destruct (shown_script_inv _ _ Sh) as (raw & a & s & G & S & ->).
    unfold affirmative in A, Hno. unfold generated in G.
    unfold exec_outcome in Hok.
    destruct (osascript (String a s)) as [rc stderr|e] eqn:X;
      [|discriminate].
    destruct (rc =? 0)%Z eqn:R; [|discriminate].
    destruct w as [d i c tr]. cbn [db stdin clock] in *. subst d i.
    eexists. run. fold (hint t cmd).
    rewrite G, S, A, X, R, Hen, Hno. run.
    split; [reflexivity|]. split; [|split].
    + unfold recorded, new_rows, insert. cbn [db rows seq].
      apply skipn_length_app.
    + unfold new_events. cbn [trace].
      rewrite <- ?app_assoc, skipn_length_app. member.
    + unfold new_events. cbn [trace].
      rewrite <- ?app_assoc, skipn_length_app. member.
  - intros answer -> Hno.
    destruct (shown_script_inv _ _ Sh) as (raw & a & s & G & S & ->).
    unfold affirmative in A, Hno. unfold generated in G.
    unfold exec_outcome in Hok.
    destruct (osascript (String a s)) as [rc stderr|e] eqn:X;
      [|discriminate].
    destruct (rc =? 0)%Z eqn:R; [|discriminate].
    destruct w as [d i c tr]. cbn [db stdin clock] in *. subst d i.
    eexists. run. fold (hint t cmd).
    rewrite G, S, A, X, R, Hen, Hno. run.
    split; [reflexivity|]. split; [|split].
    + reflexivity.
    + unfold new_events. cbn [trace].
      rewrite <- ?app_assoc, skipn_length_app. member.
    + unfold new_events. cbn [trace].
      rewrite <- ?app_assoc, skipn_length_app. member.
  - destruct (handle_command_session cmd w)
      as [H | t' script' evs v fb w' Hd' Hs' Hr Hdb Ht Hin Hv].
    + rewrite recorded_unchanged by exact H. constructor.
    + rewrite Hr. cbn [final_world].
      erewrite recorded_insert by eassumption. constructor; [|constructor].
      cbn [verified_success].
      assert (script' = script) as -> by congruence.
      rewrite Hok in Hv. destruct Hv as [Hoff | |]; try discriminate.
      rewrite Hen in Hoff. discriminate.
Qed.

End AgentFacts.

(** ** The sessions on concrete inputs *)

Lemma abort_writes_no_record_witness :
  (exists w',
     handle_command Example.chat_beep Example.run_ok Example.plain "beep"
                    (Example.world ["no"])
     = Returned false w'
     /\ db w' = db (Example.world ["no"])
     /\ existsb is_osascript (new_events (Example.world ["no"]) w') = false)
  /\ (exists w',
        handle_command Example.chat_down Example.run_ok Example.plain "beep"
                       (Example.world ["yes"])
        = Returned false w'
        /\ db w' = db (Example.world ["yes"])
        /\ existsb is_osascript (new_events (Example.world ["yes"]) w')
           = false)
  /\ (exists w',
        handle_command Example.chat_blank Example.run_ok Example.plain "beep"
                       (Example.world ["yes"])
        = Returned false w'
        /\ db w' = db (Example.world ["yes"])
        /\ existsb is_osascript (new_events (Example.world ["yes"]) w')
           = false).
Proof.
  split; [|split].
  - refine (proj1 (abort_writes_no_record Example.run_ok Example.plain _)).
    apply approval_declined
      with (t := empty_table) (script := "beep") (line := "no") (rest := []);
      reflexivity.
  - refine (proj1 (abort_writes_no_record Example.run_ok Example.plain _)).
    apply generation_failed
      with (t := empty_table) (e := "Connection error."); reflexivity.
  - refine (proj1 (abort_writes_no_record Example.run_ok Example.plain _)).
    apply generation_empty with (t := empty_table) (raw := "   ");
      reflexivity.
Defined.

Lemma permission_failure_recorded_and_explained_witness :
  exists w',
    handle_command Example.chat_beep Example.run_denied Example.plain "beep"
                   (Example.world ["y"])
    = Returned false w'
    /\ recorded (Example.world ["y"]) w'
       = [mkSolution 1 "beep" "beep" false None (Some Example.denied) None 7]
    /\ prints (new_events (Example.world ["y"]) w')
       = [(Py.nl ++ "Generated AppleScript:" ++ Py.nl)%string; "beep"]
         ++ PERMISSION_HELP ++ [execution_failed (Some Example.denied)].
Proof.
  apply (@permission_failure_recorded_and_explained
           Example.chat_beep Example.run_denied Example.plain "beep"
           (Example.world ["y"]) empty_table "beep" "y" [] 1%Z
           Example.denied);
    try reflexivity.
  discriminate.
Defined.

(** The claim of C7 without the condition on the return code fails: the run
    below exits with 0 while its error stream contains the text; the session
    returns [True], records the attempt as a success and prints no help. *)
Lemma exit_zero_with_permission_text_is_a_success :
  Py.contains NOT_AUTHORISED Example.denied = true
  /\ Example.run_logged "beep" = Completed 0 Example.denied
  /\ Example.logged_session
     = Returned true (final_world Example.logged_session)
  /\ recorded (Example.world ["yes"]) (final_world Example.logged_session)
     = [mkSolution 1 "beep" "beep" true None None None 7]
  /\ prints (new_events (Example.world ["yes"])
                        (final_world Example.logged_session))
     = [(Py.nl ++ "Generated AppleScript:" ++ Py.nl)%string; "beep";
        (Py.nl ++ "Script executed successfully!")%string].
Proof. repeat split; vm_compute; reflexivity. Qed.

Lemma other_answer_records_verified_false_witness :
  exists w',
    handle_command Example.chat_beep Example.run_ok Example.verifying "beep"
                   (Example.world ["yes"; ""; " wrong window "])
    = Returned true w'
    /\ recorded (Example.world ["yes"; ""; " wrong window "]) w'
       = [mkSolution 1 "beep" "beep" true (Some false) None
                     (Some (Py.strip " wrong window ")) 7]
    /\ In (Input ASK_VERIFIED (Some ""))
          (new_events (Example.world ["yes"; ""; " wrong window "]) w')
    /\ In (Input ASK_FEEDBACK (Some " wrong window "))
          (new_events (Example.world ["yes"; ""; " wrong window "]) w').
Proof.
  refine (proj1 (@other_answer_records_verified_false
                   Example.chat_beep Example.run_ok Example.verifying "beep"
                   (Example.world ["yes"; ""; " wrong window "])
                   empty_table "beep" "yes" [""; " wrong window "]
                   eq_refl eq_refl eq_refl eq_refl eq_refl eq_refl)
                "" " wrong window " [] eq_refl eq_refl).
Defined.

(** The claim of C9 without the condition that the feedback prompt is
    answered fails: below the script is approved and runs with return code
    0, the verification prompt is shown and answered "no", and the input
    ends there.  The feedback prompt raises [EOFError] before
    [save_solution] is reached: [handle_command] does not return, and no
    row, with [verified_success] false or otherwise, is recorded for the
    script that ran. *)
Lemma end_of_input_at_feedback_records_nothing :
  affirmative "no" = false
  /\ enable_verification Example.verifying = true
  /\ exec_outcome (Example.run_ok "beep") = (true, None)
  /\ handle_command Example.chat_beep Example.run_ok Example.verifying "beep"
                    (Example.world ["yes"; "no"])
     = Raised EOFError
              (final_world
                 (handle_command Example.chat_beep Example.run_ok
                                 Example.verifying "beep"
                                 (Example.world ["yes"; "no"])))
  /\ new_events (Example.world ["yes"; "no"])
                (final_world
                   (handle_command Example.chat_beep Example.run_ok
                                   Example.verifying "beep"
                                   (Example.world ["yes"; "no"])))
     = [ChatCompletion (messages_for "beep" (hint empty_table "beep"));
        Print (Py.nl ++ "Generated AppleScript:" ++ Py.nl)%string;
        Print "beep";
        Input ASK_APPROVAL (Some "yes");
        Osascript "beep";
        Print (Py.nl ++ "Script executed without errors.")%string;
        Input ASK_VERIFIED (Some "no");
        Input ASK_FEEDBACK None]
  /\ recorded (Example.world ["yes"; "no"])
              (final_world
                 (handle_command Example.chat_beep Example.run_ok
                                 Example.verifying "beep"
                                 (Example.world ["yes"; "no"])))
     = []
  /\ db (final_world
           (handle_command Example.chat_beep Example.run_ok
                           Example.verifying "beep"
                           (Example.world ["yes"; "no"])))
     = Some empty_table.
Proof. repeat split; vm_compute; reflexivity. Qed.

(** A script that ran but was rejected by the user is recorded with the
    feedback and is not offered as a hint afterwards. *)
Example rejected_attempt_is_not_reused :
  match handle_command Example.chat_beep Example.run_ok Example.verifying
                       "beep" (Example.world ["yes"; "no"; "wrong window"])
  with
  | Returned ok w' =>
      (ok, option_map rows (db w'), find_successful_solution (db w') "beep")
  | Raised _ w' => (false, None, inr None)
  end
  = (true,
     Some [mkSolution 1 "beep" "beep" true (Some false) None
                      (Some "wrong window") 7],
     inr None).
Proof. vm_compute. reflexivity. Qed.

(** Without verification the same run is recorded as unverified and is
    the hint of the next session. *)
Example unverified_attempt_is_reused :
  match handle_command Example.chat_beep Example.run_ok Example.plain
                       "beep" (Example.world ["yes"])
  with
  | Returned ok w' =>
      (ok, option_map rows (db w'), find_successful_solution (db w') "beep")
  | Raised _ w' => (false, None, inr None)
  end
  = (true,
     Some [mkSolution 1 "beep" "beep" true None None None 7],
     inr (Some "beep")).
Proof. vm_compute. reflexivity. Qed.

(** ** Strings *)

Section StringFacts.
Local Open Scope string_scope.

Lemma str_append_assoc (a b c : string) : (a ++ b) ++ c = a ++ (b ++ c).
Proof. induction a as [|x a IH]; simpl; [reflexivity | now rewrite IH]. Qed.

Lemma prefix_append (old s : string) :
  prefix old s = true <-> exists b, s = old ++ b.
Proof.
  revert old; induction s as [|c s IH]; intros [|o old]; simpl.
  - split; [now exists "" | reflexivity].
  - split; [discriminate | intros [b H]; discriminate].
  - split; [now exists (String c s) | reflexivity].
  - destruct (ascii_dec o c) as [-> | N].
    + rewrite IH. split; intros [b H]; exists b; congruence.
    + split; [discriminate | intros [b H]; congruence].
Qed.

(** [old in s] says that [s] is some text, then [old], then some text. *)
Lemma contains_spec (old s : string) :
  Py.contains old s = true <-> exists a b, s = a ++ old ++ b.
Proof.
  induction s as [|c s IH]; cbn [Py.contains].
  - rewrite orb_false_r, prefix_append. split.
    + intros [b H]. now exists "", b.
    + intros (a & b & H). destruct a; simpl in H; [now exists b | discriminate].
  - rewrite orb_true_iff, IH, prefix_append. split.
    + intros [[b H] | (a & b & H)].
      * now exists "", b.
      * exists (String c a), b. simpl. now rewrite H.
    + intros (a & b & H). destruct a as [|x a]; simpl in H.
      * left. now exists b.
      * right. exists a, b. congruence.
Qed.

Lemma lstrip_suffix (s : string) : exists w, s = w ++ Py.lstrip s.
Proof.
  induction s as [|c s [w IH]]; simpl; [now exists ""|].
  destruct (Py.isspace c).
  - exists (String c w). simpl. now rewrite <- IH.
  - now exists "".
Qed.

Lemma rstrip_prefix (s : string) : exists w, s = Py.rstrip s ++ w.
Proof.
  induction s as [|c s [w IH]]; simpl; [now exists ""|].
  destruct (Py.rstrip s) as [|x r].
  - destruct (Py.isspace c).
    + now exists (String c s).
    + exists w. simpl. simpl in IH. now rewrite <- IH.
  - exists w. simpl. simpl in IH. now rewrite <- IH.
Qed.

Lemma strip_keeps_absent (old s : string) :
  Py.contains old s = false -> Py.contains old (Py.strip s) = false.
Proof.
  intros H. destruct (Py.contains old (Py.strip s)) eqn:E; [|reflexivity].
  apply contains_spec in E. destruct E as (a & b & E).
  unfold Py.strip in E.
  destruct (rstrip_prefix (Py.lstrip s)) as [w2 H2].
  destruct (lstrip_suffix s) as [w1 H1].
  assert (C : Py.contains old s = true).
  { apply contains_spec. exists (w1 ++ a), (b ++ w2).
    rewrite H1 at 1. rewrite H2 at 1. rewrite E.
    now rewrite !str_append_assoc. }
  congruence.
Qed.

Lemma rstrip_idempotent (s : string) : Py.rstrip (Py.rstrip s) = Py.rstrip s.
Proof.
  induction s as [|c s IH]; simpl; [reflexivity|].
  destruct (Py.rstrip s) as [|x r] eqn:E.
  - destruct (Py.isspace c) eqn:W; simpl; [reflexivity | now rewrite W].
  - change (Py.rstrip (String c (String x r)))
      with (match Py.rstrip (String x r) with
            | "" => if Py.isspace c then "" else String c ""
            | r' => String c r'
            end).
    now rewrite IH.
Qed.

Lemma lstrip_fixed (s : string) :
  match s with String c _ => Py.isspace c = false | "" => True end ->
  Py.lstrip s = s.
Proof. destruct s as [|c s]; simpl; [reflexivity | now intros ->]. Qed.

Lemma lstrip_head (s : string) :
  match Py.lstrip s with String c _ => Py.isspace c = false | "" => True end.
Proof.
  induction s as [|c s IH]; simpl; [exact I|].
  destruct (Py.isspace c) eqn:W; [exact IH | exact W].
Qed.

Lemma rstrip_head (s : string) :
  match s with String c _ => Py.isspace c = false | "" => True end ->
  match Py.rstrip s with String c _ => Py.isspace c = false | "" => True end.
Proof.
  destruct s as [|c s]; simpl; [trivial|]. intros W.
  destruct (Py.rstrip s); [rewrite W|]; exact W.
Qed.

(** The result of [strip] has no white space left at either end. *)
Lemma strip_trimmed (s : string) :
  Py.lstrip (Py.strip s) = Py.strip s /\ Py.rstrip (Py.strip s) = Py.strip s.
Proof.
  unfold Py.strip. split.
  - apply lstrip_fixed, rstrip_head, lstrip_head.
  - apply rstrip_idempotent.
Qed.

Lemma replace_fence_step (s : string) :
  Py.replace Whisper.fence "" (Whisper.fence ++ s) = Py.replace Whisper.fence "" s.
Proof.
  destruct s; reflexivity. Qed.

Lemma replace_other_step (c : ascii) (s : string) :
  prefix Whisper.fence (String c s) = false ->
  Py.replace Whisper.fence "" (String c s)
  = String c (Py.replace Whisper.fence "" s).
Proof. unfold Py.replace. cbn [Py.replace_from]. now intros ->. Qed.

Lemma prefix_cons (a c : ascii) (old s : string) :
  prefix (String a old) (String c s) = true <-> a = c /\ prefix old s = true.
Proof.
  simpl. destruct (ascii_dec a c) as [E | N]; split.
  - auto.
  - tauto.
  - discriminate.
  - intros [E _]. contradiction.
Qed.

Lemma replace_fence_invariant (n : nat) (s : string) :
  String.length s < n ->
  (prefix "`" (Py.replace Whisper.fence "" s) = true -> prefix "`" s = true)
  /\ (prefix "``" (Py.replace Whisper.fence "" s) = true
      -> prefix "``" s = true)
  /\ Py.contains Whisper.fence (Py.replace Whisper.fence "" s) = false.
Proof.
  revert s; induction n as [|n IH]; intros s Hn; [lia|].
  destruct (prefix Whisper.fence s) eqn:P.
  - apply prefix_append in P. destruct P as [s' ->].
    rewrite replace_fence_step.
    assert (L : String.length s' < n) by (simpl in Hn; lia).
    destruct (IH s' L) as (_ & _ & H3).
    repeat split; try assumption; intros _; destruct s'; reflexivity.
  - destruct s as [|c s]; [repeat split; discriminate|].
    rewrite (replace_other_step _ _ P).
    assert (L : String.length s < n) by (simpl in Hn; lia).
    destruct (IH s L) as (H1 & H2 & H3).
    split; [|split].
    + intros H. apply prefix_cons in H. destruct H as [<- _].
      destruct s; reflexivity.
    + intros H. apply prefix_cons in H. destruct H as [<- H].
      apply prefix_cons. split; [reflexivity | now apply H1].
    + cbn [Py.contains]. rewrite H3, orb_false_r.
      destruct (prefix Whisper.fence (String c (Py.replace Whisper.fence "" s)))
        eqn:Q; [|reflexivity].
      apply prefix_cons in Q. destruct Q as [<- Q].
      apply H2 in Q.
      assert (P' : prefix Whisper.fence (String "`" s) = true)
        by (apply prefix_cons; now split).
      congruence.
Qed.

(** The clean-up of the whisper agent leaves no fence and no white space at
    either end. *)
Lemma clean_response_clean (raw : string) :
  Py.contains Whisper.fence (Whisper.clean_response raw) = false
  /\ Py.lstrip (Whisper.clean_response raw) = Whisper.clean_response raw
  /\ Py.rstrip (Whisper.clean_response raw) = Whisper.clean_response raw.
Proof.
  unfold Whisper.clean_response. split; [|apply strip_trimmed].
  apply strip_keeps_absent.
  eapply replace_fence_invariant. apply Nat.lt_succ_diag_r.
Qed.

End StringFacts.

(** ** The clean-up of the generated text *)

(** C3, on a response wrapped in a code block: v2's [generate_applescript]
    returns the text with both fence lines still in it, while the clean-up
    of the whisper agent reduces the same text to the script. *)
Theorem generate_applescript_keeps_code_fences :
  generate_applescript Example.chat_fenced "beep" (Example.world [])
  = Returned (Some Example.fenced)
             (emit (Example.world [])
                   [ChatCompletion (messages_for "beep" None)])
  /\ Py.contains Whisper.fence Example.fenced = true
  /\ Whisper.clean_response Example.fenced = "beep".
Proof. repeat split; vm_compute; reflexivity. Qed.

(** What does hold of v2's [generate_applescript] for every response: the
    text it returns is the stripped content, without white space at either
    end. *)
Lemma generate_applescript_trims
      (chat_completion : list Message -> string + string) (cmd : string)
      (w : World) (t : Table) (content : string) :
  db w = Some t ->
  generated chat_completion t cmd = inr content ->
  generate_applescript chat_completion cmd w
  = Returned (Some (Py.strip content))
             (emit w [ChatCompletion (messages_for cmd (hint t cmd))])
  /\ Py.lstrip (Py.strip content) = Py.strip content
  /\ Py.rstrip (Py.strip content) = Py.strip content.
Proof.
  intros Hd G. split; [|apply strip_trimmed].
  unfold generate_applescript, bind, query, log, ret, find_successful_solution.
  rewrite Hd. fold (hint t cmd). unfold generated in G. now rewrite G.
Qed.

(* ------------------------------------------------------------------ *)
(** * Further properties *)

(** ** Saving and retrieving *)

Lemma rows_from_attempts (l : list Attempt) (i : nat) :
  map attempt_of (rows_from i l) = l.
Proof.
  revert i; induction l as [|[tm c s ok v e f] l IH]; intros i; simpl;
    [reflexivity|].
  now rewrite IH.
Qed.

Lemma rows_from_id_seq (l : list Attempt) (i : nat) :
  map id (rows_from i l) = List.seq (S i) (List.length l).
Proof.
  revert i; induction l as [|a l IH]; intros i; simpl; [reflexivity|].
  now rewrite IH.
Qed.

(** X1. Saving a list of attempts, on a table that exists, never fails and
    appends one row per attempt, in order: the rows hold the arguments and
    the clock readings of the calls unchanged, their rowids continue the
    counter without gaps, and the rows that were there before stay in front,
    untouched. *)
Theorem save_all_appends (t : Table) (l : list Attempt) :
  exists added,
    save_all (Some t) l
    = inr (Some (mkTable (rows t ++ added) (seq t + List.length l)))
    /\ map attempt_of added = l
    /\ map id added = List.seq (S (seq t)) (List.length l).
Proof.
  exists (rows_from (seq t) l). split; [apply save_all_rows|].
  split; [apply rows_from_attempts | apply rows_from_id_seq].
Qed.

Section OrderByAppend.
Variable row : Type.
Variable key : row -> nat.

Lemma top1_app (best : option row) (l l' : list row) :
  Sql.top1 key best (l ++ l') = Sql.top1 key (Sql.top1 key best l) l'.
Proof.
  revert best; induction l as [|x l IH]; intros best; simpl;
    [reflexivity | apply IH].
Qed.

Lemma order_by_desc_limit_1_snoc (l : list row) (x : row) :
  Sql.order_by_desc_limit_1 key (l ++ [x])
  = match Sql.order_by_desc_limit_1 key l with
    | None => Some x
    | Some b => if (key b <? key x)%nat then Some x else Some b
    end.
Proof. unfold Sql.order_by_desc_limit_1. now rewrite top1_app. Qed.

End OrderByAppend.

(** The row that the query selects after an insert. *)
Lemma select_after_saving_a_success
      (t : Table) (now : nat) (cmd script : string) (v : option bool)
      (err fb : option string) :
  v <> Some false ->
  select_successful (insert now t cmd script true v err fb) cmd
  = match select_successful t cmd with
    | None => Some (mkSolution (S (seq t)) cmd script true v err fb now)
    | Some r =>
        if (timestamp r <? now)%nat
        then Some (mkSolution (S (seq t)) cmd script true v err fb now)
        else Some r
    end.
Proof.
  intros Hv. unfold select_successful, insert.
  cbn [rows]. rewrite filter_app. cbn [filter].
  match goal with
  | |- context [Sql.holds (where_successful cmd ?r)] =>
      assert (E : Sql.holds (where_successful cmd r) = true)
  end.
  { apply where_successful_qualifies. unfold qualifies; cbn.
    repeat split. destruct v as [[|]|]; auto. congruence. }
  rewrite E, order_by_desc_limit_1_snoc. reflexivity.
Qed.

Lemma select_after_saving_another
      (t : Table) (now : nat) (cmd cmd' script : string) (ok : bool)
      (v : option bool) (err fb : option string) :
  cmd' <> cmd \/ ok = false \/ v = Some false ->
  select_successful (insert now t cmd' script ok v err fb) cmd
  = select_successful t cmd.
Proof.
  intros H. unfold select_successful, insert.
  cbn [rows]. rewrite filter_app. cbn [filter].
  match goal with
  | |- context [Sql.holds (where_successful cmd ?r)] =>
      assert (E : Sql.holds (where_successful cmd r) = false)
  end.
  { destruct (Sql.holds (where_successful cmd _)) eqn:Q; [|reflexivity].
    apply where_successful_qualifies in Q. unfold qualifies in Q; cbn in Q.
    destruct Q as (Q1 & Q2 & Q3).
    destruct H as [H | [H | H]]; [congruence | congruence |].
    subst v. destruct Q3; discriminate. }
  rewrite E. now rewrite app_nil_r.
Qed.

(** X2. After a qualifying attempt for [cmd] is saved, the retrieval for [cmd]
    returns its script exactly when no qualifying row was there or the one
    selected before has a strictly smaller timestamp; otherwise the script
    selected before is still returned (also when the timestamps are
    equal). *)
Theorem find_after_saving_a_success
        (t : Table) (now : nat) (cmd script : string) (v : option bool)
        (err fb : option string) :
  v <> Some false ->
  find_successful_solution (Some (insert now t cmd script true v err fb)) cmd
  = inr (match select_successful t cmd with
         | None => Some script
         | Some r => if (timestamp r <? now)%nat then Some script
                     else Some (applescript r)
         end).
Proof.
  intros Hv. unfold find_successful_solution.
  rewrite select_after_saving_a_success by exact Hv.
  destruct (select_successful t cmd) as [r|];
    [destruct (timestamp r <? now)%nat|]; reflexivity.
Qed.

Lemma find_after_saving_a_success_witness :
  find_successful_solution
    (Some (insert 20 (mkTable [mkSolution 1 "open Safari" "A" true None None
                                          None 10] 1)
                  "open Safari" "B" true (Some true) None None))
    "open Safari"
  = inr (Some "B").
Proof.
  rewrite find_after_saving_a_success; [reflexivity | discriminate].
Defined.

(** X3. Saving an attempt that is for another command, or that failed, or that
    the user rejected, does not change what the retrieval for [cmd]
    returns. *)
Theorem find_after_saving_another
        (t : Table) (now : nat) (cmd cmd' script : string) (ok : bool)
        (v : option bool) (err fb : option string) :
  cmd' <> cmd \/ ok = false \/ v = Some false ->
  find_successful_solution (Some (insert now t cmd' script ok v err fb)) cmd
  = find_successful_solution (Some t) cmd.
Proof.
  intros H. unfold find_successful_solution.
  now rewrite select_after_saving_another.
Qed.

Lemma find_after_saving_another_witness :
  find_successful_solution
    (Some (insert 20 (mkTable [mkSolution 1 "open Safari" "A" true None None
                                          None 10] 1)
                  "open Safari" "B" true (Some false) None
                  (Some "wrong window")))
    "open Safari"
  = inr (Some "A").
Proof.
  rewrite find_after_saving_another; [reflexivity | auto].
Defined.

(** ** Rowids *)

Lemma well_formed_empty : well_formed empty_table.
Proof. split; constructor. Qed.

Lemma strongly_sorted_snoc (A : Type) (R : A -> A -> Prop) (l : list A)
      (x : A) :
  StronglySorted R l -> Forall (fun y => R y x) l ->
  StronglySorted R (l ++ [x]).
Proof.
  induction 1 as [|y l Hs IH Hy]; intros Hx; simpl.
  - repeat constructor.
  - inversion Hx; subst. constructor; [now apply IH|].
    apply Forall_app. split; [assumption | now repeat constructor].
Qed.

Lemma well_formed_insert
      (t : Table) (now : nat) (cmd script : string) (ok : bool)
      (v : option bool) (err fb : option string) :
  well_formed t -> well_formed (insert now t cmd script ok v err fb).
Proof.
  intros [Hs Hb]. unfold well_formed, insert; cbn [rows seq]. split.
  - rewrite map_app. cbn [map id]. apply strongly_sorted_snoc; [assumption|].
    apply Forall_map. eapply Forall_impl; [|exact Hb]. cbn; intros; lia.
  - apply Forall_app. split.
    + eapply Forall_impl; [|exact Hb]. cbn; intros; lia.
    + repeat constructor.
Qed.

Lemma strictly_sorted_nodup (l : list nat) : StronglySorted lt l -> NoDup l.
Proof.
  induction 1 as [|x l Hl IH Hx]; constructor; [|assumption].
  intros Hin. rewrite Forall_forall in Hx. specialize (Hx x Hin). lia.
Qed.

(** X4. An insert keeps the rowids growing and below the counter, and gives the
    new row a rowid that no row had. *)
Theorem insert_keeps_rowids
        (t : Table) (now : nat) (cmd script : string) (ok : bool)
        (v : option bool) (err fb : option string) :
  well_formed t ->
  well_formed (insert now t cmd script ok v err fb)
  /\ NoDup (map id (rows (insert now t cmd script ok v err fb)))
  /\ ~ In (S (seq t)) (map id (rows t)).
Proof.
  intros Hwf.
  pose proof (well_formed_insert now cmd script ok v err fb Hwf) as Hwf'.
  split; [exact Hwf'|]. split.
  - apply strictly_sorted_nodup. apply Hwf'.
  - destruct Hwf as [_ Hb]. intros Hin. apply in_map_iff in Hin.
    destruct Hin as (r & Hr & Hin).
    rewrite Forall_forall in Hb. specialize (Hb r Hin). lia.
Qed.

Lemma insert_keeps_rowids_witness :
  well_formed (insert 7 empty_table "beep" "beep" true None None None).
Proof.
  apply (insert_keeps_rowids 7 "beep" "beep" true None None None
                             well_formed_empty).
Defined.

(** ** The two generations of the retrieval, in general *)

Lemma filter_filter_implied (A : Type) (p q : A -> bool) (l : list A) :
  (forall x, p x = true -> q x = true) ->
  filter p (filter q l) = filter p l.
Proof.
  intros H. induction l as [|x l IH]; simpl; [reflexivity|].
  destruct (q x) eqn:Q; simpl.
  - now rewrite IH.
  - destruct (p x) eqn:P; [|exact IH]. apply H in P. congruence.
Qed.

(** X5. On every store, v2's retrieval returns what v1's retrieval returns once
    the rows marked as verified-failed are taken out of the table. *)
Theorem v2_retrieval_is_v1_without_rejected (t : Table) (cmd : string) :
  find_successful_solution (Some t) cmd
  = inr (V1.find_successful_solution
           (map v1_view (filter not_rejected (rows t))) cmd).
Proof.
  unfold find_successful_solution, V1.find_successful_solution,
    select_successful, Sql.order_by_desc_limit_1.
  f_equal.
  rewrite (@filter_map_agree _ _ v1_view
             (fun r => Sql.holds (where_successful cmd r))).
  - rewrite filter_filter_implied.
    + change (@None V1.Solution) with (option_map v1_view None).
      rewrite (@top1_map _ timestamp _ V1.timestamp v1_view) by reflexivity.
      destruct (Sql.top1 _ _ _); reflexivity.
    + intros r. unfold where_successful, not_rejected, Sql.eq_text,
        Sql.eq_one, Sql.is_null.
      destruct (command r =? cmd)%string; destruct (success r);
        destruct (verified_success r) as [[|]|]; simpl; congruence.
  - intros r Hr. apply filter_In in Hr. destruct Hr as [_ Hr].
    unfold not_rejected in Hr.
    unfold where_successful, V1.where_successful, Sql.eq_text, Sql.eq_one,
      Sql.is_null; simpl.
    destruct (command r =? cmd)%string; destruct (success r);
      destruct (verified_success r) as [[|]|]; try reflexivity; congruence.
Qed.

(* ------------------------------------------------------------------ *)
(** ** Worlds that grow *)

Ltac parts := repeat match goal with |- _ /\ _ => split end.

Lemma grows_refl (w : World) : grows w w.
Proof.
  split; [now exists []|]. exists []. split; [now rewrite app_nil_r|].
  intros t Ht. exists t, []. rewrite app_nil_r. cbn. parts; auto; lia.
Qed.

Lemma grows_trans (w1 w2 w3 : World) :
  grows w1 w2 -> grows w2 w3 -> grows w1 w3.
Proof.
  intros [[r1 Hr1] (e1 & He1 & H1)] [[r2 Hr2] (e2 & He2 & H2)]. split.
  - exists (r1 ++ r2). now rewrite Hr1, Hr2, app_assoc.
  - exists (e1 ++ e2). split; [now rewrite He2, He1, app_assoc|].
    intros t Ht. destruct (H1 t Ht) as (t2 & a1 & Hd2 & Hrows2 & Ha1 & Hc1 & Hw1).
    destruct (H2 t2 Hd2) as (t3 & a2 & Hd3 & Hrows3 & Ha2 & Hc2 & Hw2).
    exists t3, (a1 ++ a2). rewrite !filter_app, !length_app.
    parts; auto; try lia.
    now rewrite Hrows3, Hrows2, app_assoc.
Qed.

(** A step that reads some lines, changes the clock and adds events that
    are neither calls of the chat service nor runs of a script. *)
Lemma grows_quiet (w : World) (read rest : list string) (c : nat)
      (evs : list Event) (tr : list Event) :
  stdin w = read ++ rest ->
  tr = trace w ++ evs ->
  List.length (filter is_osascript evs) <= List.length (filter is_chat evs) ->
  grows w (mkWorld (db w) rest c tr).
Proof.
  intros Hs -> Hq. split; [now exists read|].
  exists evs. split; [reflexivity|]. intros t Ht. exists t, [].
  rewrite app_nil_r. cbn. parts; auto; lia.
Qed.

(** A step that, besides, inserts one row, after a script was run. *)
Lemma grows_insert (w : World) (t : Table) (read rest : list string)
      (c now : nat) (evs tr : list Event) (cmd script : string) (ok : bool)
      (v : option bool) (err fb : option string) :
  db w = Some t ->
  stdin w = read ++ rest ->
  tr = trace w ++ evs ->
  1 <= List.length (filter is_osascript evs) ->
  List.length (filter is_osascript evs) <= List.length (filter is_chat evs) ->
  grows w (mkWorld (Some (insert now t cmd script ok v err fb)) rest c tr).
Proof.
  intros Hd Hs -> H1 Hq. split; [now exists read|].
  exists evs. split; [reflexivity|]. intros t0 Ht0.
  assert (t0 = t) by congruence. subst t0.
  eexists. eexists. cbn [db]. split; [reflexivity|].
  unfold insert at 1. cbn [rows]. split; [reflexivity|]. cbn [List.length].
  parts; auto. intros Hwf. now apply well_formed_insert.
Qed.

Lemma grows_db (w w' : World) : grows w w' -> db w <> None -> db w' <> None.
Proof.
  intros [_ (evs & _ & H)] Hd. destruct (db w) as [t|] eqn:E; [|congruence].
  destruct (H t eq_refl) as (t' & a & -> & _). discriminate.
Qed.

Lemma grows_stdin (w w' : World) :
  grows w w' -> List.length (stdin w') <= List.length (stdin w).
Proof. intros [[r ->] _]. rewrite length_app. lia. Qed.

(* ------------------------------------------------------------------ *)
(** ** More on the sessions of v2 *)

Section SessionFacts.

Variable chat_completion : list Message -> string + string.
Variable osascript : string -> ProcResult.
Variable self : ScriptLearningAgent.

Abbreviation handle := (handle_command chat_completion osascript self).
Abbreviation shown := (shown_script chat_completion).

Ltac run :=
  cbv beta iota zeta delta
    [handle_command generate_applescript
     execute_applescript print_all print log input query
     execute bind ret find_successful_solution save_solution final_world
     db stdin clock trace PERMISSION_HELP andb negb affirmative].

(** The case analysis along the branches of [handle_command]; [k] is run on
    every path. *)
Ltac explore cmd d i k :=
  run;
  destruct d as [t|];
  [ change (option_map applescript (select_successful t cmd))
      with (hint t cmd);
    destruct (chat_completion (messages_for cmd (hint t cmd)))
      as [e|raw] eqn:G;
    [ k
    | destruct (Py.strip raw) as [|a s] eqn:S;
      [ k
      | assert (Sh : shown t cmd = Some (String a s))
          by (unfold shown_script, generated; now rewrite G, S);
        destruct i as [|line rest];
        [ k
        | destruct (Py.in_yes_y (Py.lower (Py.strip line))) eqn:A; run;
          [ destruct (osascript (String a s)) as [rc stderr|e] eqn:X;
            [ destruct (rc =? 0)%Z eqn:R;
              [ destruct (enable_verification self) eqn:V;
                [ destruct rest as [|ans rest];
                  [ k
                  | destruct (Py.in_yes_y (Py.lower (Py.strip ans))) eqn:Y;
                    run;
                    [ k | destruct rest as [|fb rest]; k ] ]
                | k ]
              | destruct (Py.contains NOT_AUTHORISED stderr) eqn:C; run; k ]
            | k ]
          | k ] ] ] ]
  | k ].

Ltac events :=
  unfold new_events; cbn [trace final_world];
  rewrite <- ?app_assoc, ?skipn_length_app; cbn [app].

Ltac records :=
  first [ rewrite recorded_unchanged by reflexivity
        | erewrite recorded_insert by reflexivity ].

Ltac same rd :=
  eapply grows_quiet with (read := rd);
  [ reflexivity
  | cbn [trace]; rewrite <- ?app_assoc; cbn [app]; reflexivity
  | cbn; lia ].

Ltac more rd :=
  eapply grows_insert with (read := rd);
  [ reflexivity
  | reflexivity
  | cbn [trace]; rewrite <- ?app_assoc; cbn [app]; reflexivity
  | cbn; lia
  | cbn; lia ].

Lemma handle_command_grows (cmd : string) (w : World) :
  grows w (final_world (handle cmd w)).
Proof.
  destruct w as [d i c tr].
  explore cmd d i
    ltac:(run;
          first [ apply grows_refl
                | same (@nil string) | same [line] | same [line; ans]
                | same [line; ans; fb]
                | more [line] | more [line; ans] | more [line; ans; fb] ]).
Qed.

Lemma handle_command_raises (cmd : string) (w : World) (x : exn)
      (w' : World) :
  db w <> None -> handle cmd w = Raised x w' ->
  x = EOFError /\ stdin w' = [].
Proof.
  destruct w as [d i c tr]. intros Hd.
  explore cmd d i
    ltac:(run; intros H;
          first [ discriminate H
                | contradiction
                | injection H as <- <-; split; reflexivity ]).
Qed.

(** X6. One session calls the chat service at most once, runs a script only
    after such a call (so at most one), reads at most three lines, all from
    the front of the input, only adds to the trace, and records a row only
    if a script was run. *)
Theorem handle_command_effects (cmd : string) (w : World) :
  exists evs,
    trace (final_world (handle cmd w)) = trace w ++ evs
    /\ stdin w = answers evs ++ stdin (final_world (handle cmd w))
    /\ List.length (answers evs) <= 3
    /\ List.length (filter is_chat evs) <= 1
    /\ List.length (filter is_osascript evs)
       <= List.length (filter is_chat evs)
    /\ List.length (recorded w (final_world (handle cmd w)))
       <= List.length (filter is_osascript evs).
Proof.
  destruct w as [d i c tr].
  explore cmd d i
    ltac:(run; eexists;
          split;
          [cbn [trace];
           first [ rewrite <- ?app_assoc; cbn [app]; reflexivity
                 | symmetry; apply app_nil_r ]|];
          records; cbn; repeat split; lia).
Qed.

(** X7. A script is run only after it was printed and the user approved it:
    the [osascript] call of a session comes right after the affirmative
    answer to the approval prompt, which comes right after the script was
    printed; the script is the stripped text of the generation, and it is
    the only one the session runs. *)
Theorem script_runs_only_after_approval
        (cmd : string) (w : World) (script : string) :
  In (Osascript script) (new_events w (final_world (handle cmd w))) ->
  exists t pre line post,
    db w = Some t
    /\ shown t cmd = Some script
    /\ new_events w (final_world (handle cmd w))
       = pre ++ [Print script; Input ASK_APPROVAL (Some line);
                 Osascript script] ++ post
    /\ affirmative line = true
    /\ existsb is_osascript pre = false
    /\ existsb is_osascript post = false.
Proof.
  destruct w as [d i c tr].
  assert (K : new_events (mkWorld d i c tr) (mkWorld d i c tr) = [])
    by (unfold new_events; cbn [trace];
        rewrite <- (app_nil_r tr) at 2; apply skipn_length_app).
  explore cmd d i
    ltac:(run; first [rewrite K | events]; intros H; cbn [In] in H;
          decompose [or] H; try discriminate; try contradiction;
          match goal with
          | Hq : Osascript _ = Osascript _ |- _ => injection Hq as <-
          end;
          exists t, [ChatCompletion (messages_for cmd (hint t cmd));
                     Print (Py.nl ++ "Generated AppleScript:" ++ Py.nl)%string],
                 line;
          eexists; repeat split; first [exact Sh | exact A | reflexivity]).
Qed.

(** X8. An exception never leaves a record behind.  Without the table the
    session raises at once, before anything is printed or called; with the
    table only the end of the input can raise, at one of the three prompts,
    and the database is the one the session started with, also when the
    script has already been run. *)
Theorem exception_leaves_database
        (cmd : string) (w : World) (x : exn) (w' : World) :
  handle cmd w = Raised x w' ->
  db w' = db w
  /\ ((db w = None /\ x = no_such_table /\ w' = w)
      \/ (db w <> None /\ x = EOFError /\ stdin w' = []
          /\ exists evs prompt,
               new_events w w' = evs ++ [Input prompt None]
               /\ In prompt [ASK_APPROVAL; ASK_VERIFIED; ASK_FEEDBACK])).
Proof.
  destruct w as [d i c tr].
  explore cmd d i
    ltac:(run; intros H; try discriminate H;
          injection H as <- <-;
          (split;
           [ reflexivity
           | first [ left; repeat split; reflexivity
                   | right; (split; [discriminate|]);
                     (split; [reflexivity|]); (split; [reflexivity|]);
                     events;
                     match goal with
                     | |- exists evs prompt, ?L = _ /\ _ =>
                         first
                           [ exists (removelast L), ASK_APPROVAL;
                             split; [reflexivity | cbn [In]; tauto]
                           | exists (removelast L), ASK_VERIFIED;
                             split; [reflexivity | cbn [In]; tauto]
                           | exists (removelast L), ASK_FEEDBACK;
                             split; [reflexivity | cbn [In]; tauto] ]
                     end ] ])).
Qed.

(** X9. The value that [handle_command] returns tells what was recorded: it is
    [True] exactly when one row with the success flag set was appended; when
    it is [False], either nothing was recorded or one row with the flag
    cleared and an error message. *)
Theorem returned_value_and_record
        (cmd : string) (w : World) (b : bool) (w' : World) :
  handle cmd w = Returned b w' ->
  (b = true <-> exists r, recorded w w' = [r] /\ success r = true)
  /\ (b = false ->
      recorded w w' = []
      \/ exists r, recorded w w' = [r] /\ success r = false
                   /\ error_message r <> None).
Proof.
  destruct w as [d i c tr].
  explore cmd d i
    ltac:(run; intros H; try discriminate H;
          injection H as <- <-; records;
          (split;
           [ split;
             [ first [ discriminate
                     | intros _; eexists; split; reflexivity ]
             | first [ reflexivity
                     | intros (r & Hr & Hs);
                       first [ discriminate Hr
                             | injection Hr as <-; discriminate Hs ] ] ]
           | first [ discriminate
                   | intros _; left; reflexivity
                   | intros _; right; eexists; repeat split;
                     first [ reflexivity | discriminate ] ] ])).
Qed.

(** X10. The table only grows: a session on an existing table leaves all its
    rows in front, untouched, and appends what it recorded; a recorded row
    carries the command of the session, the clock reading and the next
    rowid, and the rowids stay well formed. *)
Theorem handle_command_appends (cmd : string) (w : World) (t : Table) :
  db w = Some t ->
  exists t',
    db (final_world (handle cmd w)) = Some t'
    /\ rows t' = rows t ++ recorded w (final_world (handle cmd w))
    /\ seq t' = seq t + List.length (recorded w (final_world (handle cmd w)))
    /\ Forall (fun r => id r = S (seq t) /\ command r = cmd
                        /\ timestamp r = clock w)
              (recorded w (final_world (handle cmd w)))
    /\ (well_formed t -> well_formed t').
Proof.
  intros Hd.
  destruct (handle_command_session chat_completion osascript self cmd w)
    as [H | t0 script evs v fb w' Hd0 Hs Hr Hd' Ht Hin Hv].
  - exists t. rewrite recorded_unchanged by exact H. rewrite H.
    cbn [List.length]. rewrite app_nil_r, Nat.add_0_r.
    split; [exact Hd|]. split; [reflexivity|]. split; [reflexivity|].
    split; [constructor | trivial].
  - assert (t0 = t) by congruence. subst t0.
    rewrite Hr. cbn [final_world].
    erewrite recorded_insert by eassumption.
    eexists. split; [exact Hd'|]. cbn [rows seq insert List.length].
    split; [reflexivity|]. split; [lia|]. split.
    + repeat constructor.
    + intros Hwf. now apply well_formed_insert.
Qed.

(** X11. What a session changes for the sessions to come.  It never changes the
    retrieval for another command; it does not change the retrieval for its
    own command when what it recorded failed or was rejected; and when it
    recorded a success that was not rejected, at a clock reading later than
    the timestamps of the qualifying rows, the script it ran is what the
    retrieval returns from then on. *)
Theorem session_and_the_next_hint (cmd : string) (w : World) (t : Table) :
  db w = Some t ->
  (forall other, other <> cmd ->
     find_successful_solution (db (final_world (handle cmd w))) other
     = find_successful_solution (db w) other)
  /\ (Forall (fun r => success r = false \/ verified_success r = Some false)
             (recorded w (final_world (handle cmd w))) ->
      find_successful_solution (db (final_world (handle cmd w))) cmd
      = find_successful_solution (db w) cmd)
  /\ (forall r,
        recorded w (final_world (handle cmd w)) = [r] ->
        success r = true ->
        verified_success r <> Some false ->
        (forall r0, In r0 (rows t) -> qualifies cmd r0 ->
                    timestamp r0 < clock w) ->
        find_successful_solution (db (final_world (handle cmd w))) cmd
        = inr (Some (applescript r))
        /\ shown t cmd = Some (applescript r)).
Proof.
  intros Hd.
  destruct (handle_command_session chat_completion osascript self cmd w)
    as [H | t0 script evs v fb w' Hd0 Hs Hr Hd' Ht Hin Hv].
  - rewrite recorded_unchanged by exact H. rewrite H.
    repeat split; auto; discriminate.
  - assert (t0 = t) by congruence. subst t0.
    rewrite Hr. cbn [final_world].
    erewrite recorded_insert by eassumption. rewrite Hd', Hd.
    unfold find_successful_solution. split; [|split].
    + intros other Hne. rewrite select_after_saving_another; auto.
    + intros Hf. inversion Hf as [|? ? Hrow _]; subst.
      cbn [success verified_success] in Hrow.
      rewrite select_after_saving_another; [reflexivity | tauto].
    + intros r [= <-]. cbn [success verified_success applescript].
      intros Hok Hnv Hlate. rewrite Hok.
      split; [|exact Hs].
      rewrite select_after_saving_a_success by exact Hnv.
      destruct (select_successful t cmd) as [r0|] eqn:Q; [|reflexivity].
      unfold select_successful in Q.
      apply order_by_desc_limit_1_some in Q. destruct Q as [Q _].
      apply filter_In in Q. destruct Q as [Qin Qq].
      apply where_successful_qualifies in Qq.
      specialize (Hlate r0 Qin Qq). apply Nat.ltb_lt in Hlate.
      now rewrite Hlate.
Qed.

End SessionFacts.

(** The further properties of the sessions, on concrete inputs. *)

Lemma script_runs_only_after_approval_witness :
  exists t pre line post,
    db (Example.world ["y"]) = Some t
    /\ shown_script Example.chat_beep t "beep" = Some "beep"
    /\ new_events (Example.world ["y"])
                  (final_world
                     (handle_command Example.chat_beep Example.run_denied
                                     Example.plain "beep"
                                     (Example.world ["y"])))
       = pre ++ [Print "beep"; Input ASK_APPROVAL (Some line);
                 Osascript "beep"] ++ post
    /\ affirmative line = true
    /\ existsb is_osascript pre = false
    /\ existsb is_osascript post = false.
Proof.
  apply (@script_runs_only_after_approval
           Example.chat_beep Example.run_denied Example.plain "beep"
           (Example.world ["y"]) "beep").
  vm_compute. tauto.
Defined.

(** The input ends at the verification prompt, after the script was run:
    the session raises and the run is not recorded. *)
Lemma exception_leaves_database_witness :
  handle_command Example.chat_beep Example.run_ok Example.verifying "beep"
                 (Example.world ["yes"])
  = Raised EOFError
           (final_world
              (handle_command Example.chat_beep Example.run_ok
                              Example.verifying "beep"
                              (Example.world ["yes"])))
  /\ existsb is_osascript
             (trace (final_world
                       (handle_command Example.chat_beep Example.run_ok
                                       Example.verifying "beep"
                                       (Example.world ["yes"]))))
     = true
  /\ db (final_world
           (handle_command Example.chat_beep Example.run_ok
                           Example.verifying "beep" (Example.world ["yes"])))
     = db (Example.world ["yes"]).
Proof.
  assert (H : handle_command Example.chat_beep Example.run_ok
                             Example.verifying "beep" (Example.world ["yes"])
              = Raised EOFError
                  (final_world
                     (handle_command Example.chat_beep Example.run_ok
                                     Example.verifying "beep"
                                     (Example.world ["yes"]))))
    by (vm_compute; reflexivity).
  split; [exact H|]. split; [vm_compute; reflexivity|].
  exact (proj1 (@exception_leaves_database _ _ _ _ _ _ _ H)).
Defined.

Lemma returned_value_and_record_witness :
  exists r,
    recorded (Example.world ["yes"])
             (final_world
                (handle_command Example.chat_beep Example.run_ok
                                Example.plain "beep" (Example.world ["yes"])))
    = [r]
    /\ success r = true.
Proof.
  assert (H : handle_command Example.chat_beep Example.run_ok
                             Example.plain "beep" (Example.world ["yes"])
              = Returned true
                  (final_world
                     (handle_command Example.chat_beep Example.run_ok
                                     Example.plain "beep"
                                     (Example.world ["yes"]))))
    by (vm_compute; reflexivity).
  exact (proj1 (proj1 (@returned_value_and_record _ _ _ _ _ _ _ H)) eq_refl).
Defined.

Lemma handle_command_appends_witness :
  exists t',
    db (final_world
          (handle_command Example.chat_beep Example.run_ok Example.plain
                          "beep" (Example.world ["yes"])))
    = Some t'
    /\ well_formed t'.
Proof.
  destruct (@handle_command_appends
              Example.chat_beep Example.run_ok Example.plain "beep"
              (Example.world ["yes"]) empty_table eq_refl)
    as (t' & Hdb & _ & _ & _ & Hwf).
  exists t'. split; [exact Hdb | exact (Hwf well_formed_empty)].
Defined.

Lemma session_and_the_next_hint_witness :
  find_successful_solution
    (db (final_world
           (handle_command Example.chat_beep Example.run_ok Example.plain
                           "beep" (Example.world ["yes"]))))
    "open Safari"
  = find_successful_solution (db (Example.world ["yes"])) "open Safari".
Proof.
  apply (proj1 (@session_and_the_next_hint
                  Example.chat_beep Example.run_ok Example.plain "beep"
                  (Example.world ["yes"]) empty_table eq_refl)).
  discriminate.
Defined.

(* ------------------------------------------------------------------ *)
(** ** The first generation of the agent *)

Section V1Facts.

Variable chat_completion : list Message -> string + string.
Variable osascript : string -> ProcResult.

Ltac run1 :=
  cbv beta iota zeta delta
    [handle_command generate_applescript V1Agent.handle_command
     V1Agent.generate_applescript V1Agent.save_solution
     execute_applescript print_all print log input query
     execute bind ret find_successful_solution save_solution final_world
     db stdin clock trace PERMISSION_HELP andb negb with_db outcome].

(** The case analysis along the branches of v1's [handle_command]. *)
Ltac explore1 cmd i k :=
  run1;
  destruct (chat_completion (V1Agent.messages_for cmd)) as [e|raw] eqn:G;
  [ k
  | destruct (Py.strip raw) as [|a s] eqn:S;
    [ k
    | destruct i as [|line rest];
      [ k
      | destruct (Py.in_yes_y (Py.lower (Py.strip line))) eqn:A; run1;
        [ destruct (osascript (String a s)) as [rc stderr|e] eqn:X;
          [ destruct (rc =? 0)%Z eqn:R;
            [ k
            | destruct (Py.contains NOT_AUTHORISED stderr) eqn:C; run1; k ]
          | k ]
        | k ] ] ] ].

(** X12. With verification disabled and no script to offer as a hint (none was
    retrieved, or an empty one), a session of v2 is a session of v1: the
    same value or exception, the same prompts, calls and printed lines, the
    same row in the table. *)
Theorem v2_without_verification_and_hint_is_v1
        (self : ScriptLearningAgent) (cmd : string) (w : World) (t : Table) :
  enable_verification self = false ->
  db w = Some t ->
  Py.truthy (hint t cmd) = false ->
  handle_command chat_completion osascript self cmd w
  = V1Agent.handle_command chat_completion osascript cmd w.
Proof.
  intros V Hd Hh. destruct w as [d i c tr]. cbn [db] in Hd. subst d.
  assert (Hm : messages_for cmd (hint t cmd) = V1Agent.messages_for cmd)
    by (unfold messages_for; now rewrite Hh).
  run1. fold (hint t cmd). rewrite Hm, V.
  explore1 cmd i ltac:(reflexivity).
Qed.

(** X13. A session of v1 does not depend on what the table holds: on any other
    table it returns or raises the same, reads and prints the same, makes
    the same calls and records the same attempt.  (Its retrieval is never
    called.) *)
Theorem v1_session_ignores_the_table
        (cmd : string) (w : World) (t t2 : Table) :
  db w = Some t ->
  outcome (V1Agent.handle_command chat_completion osascript cmd
                                  (with_db w (Some t2)))
  = outcome (V1Agent.handle_command chat_completion osascript cmd w)
  /\ stdin (final_world (V1Agent.handle_command chat_completion osascript cmd
                                                (with_db w (Some t2))))
     = stdin (final_world (V1Agent.handle_command chat_completion osascript
                                                  cmd w))
  /\ trace (final_world (V1Agent.handle_command chat_completion osascript cmd
                                                (with_db w (Some t2))))
     = trace (final_world (V1Agent.handle_command chat_completion osascript
                                                  cmd w))
  /\ map attempt_of
         (recorded (with_db w (Some t2))
                   (final_world (V1Agent.handle_command
                                   chat_completion osascript cmd
                                   (with_db w (Some t2)))))
     = map attempt_of
           (recorded w (final_world (V1Agent.handle_command
                                       chat_completion osascript cmd w))).
Proof.
  intros Hd. destruct w as [d i c tr]. cbn [db] in Hd. subst d.
  explore1 cmd i
    ltac:(repeat (split; [reflexivity|]);
          first [ rewrite !recorded_unchanged by reflexivity; reflexivity
                | erewrite !recorded_insert by reflexivity; reflexivity ]).
Qed.

End V1Facts.

Lemma v2_without_verification_and_hint_is_v1_witness :
  handle_command Example.chat_beep Example.run_denied Example.plain "beep"
                 (Example.world ["yes"])
  = V1Agent.handle_command Example.chat_beep Example.run_denied "beep"
                           (Example.world ["yes"]).
Proof.
  apply v2_without_verification_and_hint_is_v1 with (t := empty_table);
    reflexivity.
Defined.

Lemma v1_session_ignores_the_table_witness :
  outcome (V1Agent.handle_command
             Example.chat_beep Example.run_ok "beep"
             (with_db (Example.world ["yes"])
                      (Some (mkTable [mkSolution 1 "beep" "say hello" true
                                                 None None None 3] 1))))
  = inr true.
Proof.
  rewrite (proj1 (@v1_session_ignores_the_table
                    Example.chat_beep Example.run_ok "beep"
                    (Example.world ["yes"]) empty_table
                    (mkTable [mkSolution 1 "beep" "say hello" true
                                         None None None 3] 1)
                    eq_refl)).
  vm_compute. reflexivity.
Defined.

(* ------------------------------------------------------------------ *)
(** ** The interactive loop *)

Section LoopFacts.

Variable microphone : World -> Recording.
Variable transcription : string -> World -> string + string.
Variable wall_clock : World -> nat.
Variable handle : string -> M bool.

(** What the agent needs of the world (its table), kept as the world
    grows. *)
Variable ready : World -> Prop.
Hypothesis ready_grows : forall w w', grows w w' -> ready w -> ready w'.

Hypothesis handle_grows : forall cmd w, grows w (final_world (handle cmd w)).
Hypothesis handle_raises :
  forall cmd w e w', ready w -> handle cmd w = Raised e w' ->
                     e = EOFError /\ stdin w' = [].

Abbreviation round' := (round microphone transcription wall_clock handle).
Abbreviation loop := (main_loop microphone transcription wall_clock handle).

Abbreviation spec := (loop_spec ready).

Ltac unroll :=
  cbv beta iota zeta delta
    [round tick record_audio transcribe_audio print log input bind ret
     db stdin clock trace negb].

Ltac quiet_step rd :=
  cbn [final_world];
  eapply grows_quiet with (read := rd);
  [ reflexivity
  | cbn [trace]; rewrite <- ?app_assoc; cbn [app]; reflexivity
  | cbn; lia ].

(** The rounds that follow, from a world reached by a quiet step. *)
Ltac continue Hk rd :=
  match goal with
  | |- grows ?w (final_world (?k ?w2)) /\ ended (?k ?w2) =>
      let Hg := fresh "Hg" in
      let He := fresh "He" in
      let Hlt := fresh "Hlt" in
      let Hq := fresh "Hq" in
      let Hok := fresh "Hok" in
      match type of Hk with
      | spec ?n _ =>
          assert (Hlt : List.length (stdin w2) < n)
            by (cbn [stdin List.length] in *; lia)
      end;
      assert (Hq : grows w w2) by (quiet_step rd);
      assert (Hok : ready w2) by (eapply ready_grows; [exact Hq | assumption]);
      destruct (Hk w2 Hlt Hok) as [Hg He];
      split; [eapply grows_trans; [exact Hq | exact Hg] | exact He]
  end.

(** A call of [handle], and then the rounds that follow. *)
Ltac handled Hk rd :=
  match goal with
  | |- grows ?w0 (final_world match handle ?cmd ?w3 with _ => _ end) /\ _ =>
      let Hh := fresh "Hh" in
      let Hg3 := fresh "Hg3" in
      let Hq := fresh "Hq" in
      let Hok3 := fresh "Hok" in
      let b := fresh "b" in
      let x := fresh "x" in
      let w4 := fresh "w4" in
      pose proof (handle_grows cmd w3) as Hg3;
      assert (Hq : grows w0 w3) by (quiet_step rd);
      assert (Hok3 : ready w3)
        by (eapply ready_grows; [exact Hq | assumption]);
      destruct (handle cmd w3) as [b w4 | x w4] eqn:Hh;
      cbn [final_world] in *;
      [ let Hg := fresh "Hg" in
        let He := fresh "He" in
        let Hlt := fresh "Hlt" in
        let Hok := fresh "Hok" in
        match type of Hk with
        | spec ?n _ =>
            assert (Hlt : List.length (stdin w4) < n)
              by (apply grows_stdin in Hg3; cbn [stdin List.length] in *;
                  lia)
        end;
        assert (Hok : ready w4)
          by (eapply ready_grows; [exact Hg3 | assumption]);
        destruct (Hk w4 Hlt Hok) as [Hg He];
        split; [ eapply grows_trans; [exact Hq|];
                 eapply grows_trans; [exact Hg3 | exact Hg]
               | exact He ]
      | split; [ eapply grows_trans; [exact Hq | exact Hg3]
               | eapply handle_raises; [|exact Hh]; assumption ] ]
  end.

Lemma round_spec (n : nat) (k : M (option unit)) :
  spec n k -> spec (S n) (round' k).
Proof.
  intros Hk [d i c tr] Hlen Hd. cbn [stdin] in *. unroll.
  destruct i as [|line rest].
  - split; [|now split]. quiet_step (@nil string).
  - destruct (Py.lower (Py.strip line) =? "quit") eqn:Q; unroll.
    { split; [quiet_step [line]|].
      exists tr, line. split; [now rewrite <- app_assoc|].
      now apply String.eqb_eq. }
    destruct (Py.lower (Py.strip line) =? "speak") eqn:Sp; unroll.
    { destruct (microphone _) as [|[| |] e]; unroll;
        try solve [continue Hk [line]].
      destruct (transcription _ _) as [e|[|a text]]; unroll;
        try solve [continue Hk [line]].
      handled Hk [line]. }
    destruct (Py.lower (Py.strip line) =? "type") eqn:Ty; unroll.
    { destruct rest as [|command rest]; unroll.
      - split; [|now split]. quiet_step [line].
      - handled Hk [line; command]. }
    continue Hk [line].
Qed.

Lemma main_loop_spec (fuel : nat) : spec fuel (loop fuel).
Proof.
  induction fuel as [|fuel IH].
  - intros w Hlen. inversion Hlen.
  - apply round_spec. exact IH.
Qed.

Lemma ended_finished (r : Result (option unit)) : ended r -> finished r.
Proof. destruct r as [[u|] w | e w]; cbn; auto. Qed.

(** A round that ends does not depend on rounds it does not reach. *)
Lemma round_more (k1 k2 : M (option unit)) :
  (forall w, finished (k1 w) -> k2 w = k1 w) ->
  forall w, finished (round' k1 w) -> round' k2 w = round' k1 w.
Proof.
  intros Hk [d i c tr]. unroll.
  destruct i as [|line rest]; [reflexivity|].
  destruct (Py.lower (Py.strip line) =? "quit"); unroll; [reflexivity|].
  destruct (Py.lower (Py.strip line) =? "speak"); unroll.
  { destruct (microphone _) as [|[| |] e]; unroll; try apply Hk.
    destruct (transcription _ _) as [e|[|a text]]; unroll; try apply Hk.
    destruct (handle _ _) as [b w4 | x w4]; [apply Hk | reflexivity]. }
  destruct (Py.lower (Py.strip line) =? "type"); unroll.
  { destruct rest as [|command rest]; unroll; [reflexivity|].
    destruct (handle _ _) as [b w4 | x w4]; [apply Hk | reflexivity]. }
  apply Hk.
Qed.

Lemma main_loop_one_more (fuel : nat) (w : World) :
  finished (loop fuel w) -> loop (S fuel) w = loop fuel w.
Proof.
  revert w; induction fuel as [|fuel IH]; intros w Hf; [contradiction|].
  change (round' (loop (S fuel)) w = round' (loop fuel) w).
  apply round_more; [exact IH | exact Hf].
Qed.

Lemma main_loop_more (fuel extra : nat) (w : World) :
  finished (loop fuel w) -> loop (extra + fuel) w = loop fuel w.
Proof.
  intros Hf. induction extra as [|extra IH]; [reflexivity|].
  cbn [Nat.add]. rewrite main_loop_one_more; rewrite IH; auto.
Qed.

(** With more rounds allowed than there are lines to read, the loop ends,
    as [ended] says, the world has grown, and allowing still more rounds
    changes nothing. *)
Lemma main_loop_run (fuel : nat) (w : World) :
  List.length (stdin w) < fuel -> ready w ->
  grows w (final_world (loop fuel w))
  /\ ended (loop fuel w)
  /\ loop fuel w = loop (S (List.length (stdin w))) w.
Proof.
  intros Hlen Hd.
  destruct (@main_loop_spec fuel w Hlen Hd) as [Hg He].
  split; [exact Hg|]. split; [exact He|].
  replace fuel with ((fuel - S (List.length (stdin w)))
                     + S (List.length (stdin w))) at 1 by lia.
  apply main_loop_more, ended_finished.
  apply (@main_loop_spec (S (List.length (stdin w))) w); [lia | exact Hd].
Qed.

End LoopFacts.

(** *** The loop of v2 *)

Lemma setup_database_some (d : Database) : setup_database d <> None.
Proof. destruct d; discriminate. Qed.

Section MainFacts.

Variable chat_completion : list Message -> string + string.
Variable osascript : string -> ProcResult.
Variable microphone : World -> Recording.
Variable transcription : string -> World -> string + string.
Variable wall_clock : World -> nat.

Abbreviation main2 :=
  (main chat_completion osascript microphone transcription wall_clock).

(** X14. Provided every external call returns (the chat service,
    [osascript], the microphone and the transcription are the functions
    [chat_completion], [osascript], [microphone] and [transcription]; the
    source sets no timeout, and a call that hangs blocks the loop for
    good), and started on a database file that has no [solutions] table
    yet or holds the table with the columns of v2 (a file left by v1 is
    not a [Database]; on it the first INSERT of v2 fails), [main] ends on
    every finite input.  Allowed more rounds than there are lines to read,
    it returns only by [break], right after a line that reads as "quit"
    (whatever its case and the blanks around it) and the farewell;
    otherwise it stops with the end of the input; no failure reported by a
    command, a recording or a transcription ends it, and allowing more
    rounds never changes the run. *)
Theorem main_ends (verify : bool) (fuel : nat) (w : World) :
  List.length (stdin w) < fuel ->
  ended (main2 verify fuel w)
  /\ main2 verify fuel w = main2 verify (S (List.length (stdin w))) w.
Proof.
  intros Hlen. unfold main, bind, init, execute.
  cbv beta iota zeta.
  set (w0 := mkWorld (setup_database (db w)) (stdin w) (clock w) (trace w)).
  destruct (@main_loop_run
              microphone transcription wall_clock
              (handle_command chat_completion osascript
                              (mkAgent "script_solutions.db" verify))
              (fun v => db v <> None) (fun v v' H => @grows_db v v' H)
              (fun c v => handle_command_grows _ _ _ c v)
              (fun c v x v' => @handle_command_raises _ _ _ c v x v')
              fuel w0 Hlen (setup_database_some (db w)))
    as (_ & He & Hf).
  split; [exact He | exact Hf].
Qed.

(** X15. Over a whole run of [main] the table only grows: after the start-up
    the table exists, the rows that were there stay in front, untouched,
    the rowids stay well formed, no more rows are added than scripts were
    run, and no more scripts are run than the chat service was called. *)
Theorem main_grows (verify : bool) (fuel : nat) (w : World) :
  List.length (stdin w) < fuel ->
  grows (with_db w (setup_database (db w)))
        (final_world (main2 verify fuel w)).
Proof.
  intros Hlen. unfold main, bind, init, execute, with_db.
  cbv beta iota zeta.
  set (w0 := mkWorld (setup_database (db w)) (stdin w) (clock w) (trace w)).
  apply (@main_loop_run
           microphone transcription wall_clock
           (handle_command chat_completion osascript
                           (mkAgent "script_solutions.db" verify))
           (fun v => db v <> None) (fun v v' H => @grows_db v v' H)
           (fun c v => handle_command_grows _ _ _ c v)
           (fun c v x v' => @handle_command_raises _ _ _ c v x v')
           fuel w0 Hlen (setup_database_some (db w))).
Qed.

End MainFacts.

Lemma main_ends_witness :
  ended (main Example.chat_beep Example.run_ok LoopExample.microphone
              LoopExample.transcription LoopExample.wall_clock false 5
              (mkWorld None LoopExample.typed 0 [])).
Proof.
  apply (@main_ends Example.chat_beep Example.run_ok LoopExample.microphone
                    LoopExample.transcription LoopExample.wall_clock false 5
                    (mkWorld None LoopExample.typed 0 [])).
  cbn. lia.
Defined.

Lemma main_grows_witness :
  grows (with_db (mkWorld None LoopExample.typed 0 []) (Some empty_table))
        (final_world
           (main Example.chat_beep Example.run_ok LoopExample.microphone
                 LoopExample.transcription LoopExample.wall_clock false 5
                 (mkWorld None LoopExample.typed 0 []))).
Proof.
  apply (@main_grows Example.chat_beep Example.run_ok LoopExample.microphone
                     LoopExample.transcription LoopExample.wall_clock false 5
                     (mkWorld None LoopExample.typed 0 [])).
  cbn. lia.
Defined.

(** The run of the example: one command typed, approved and recorded, then
    quit. *)
Example main_on_the_example :
  match main Example.chat_beep Example.run_ok LoopExample.microphone
             LoopExample.transcription LoopExample.wall_clock false 5
             (mkWorld None LoopExample.typed 0 [])
  with
  | Returned u w' => (u, option_map rows (db w'), stdin w', prints (trace w'))
  | Raised _ w' => (None, None, stdin w', [])
  end
  = (Some tt,
     Some [mkSolution 1 "beep" "beep" true None None None 0],
     [],
     [(Py.nl ++ "Generated AppleScript:" ++ Py.nl)%string; "beep";
      (Py.nl ++ "Script executed successfully!")%string; "Exiting."]).
Proof. vm_compute. reflexivity. Qed.

(* ------------------------------------------------------------------ *)
(** ** The agent without records *)

Section MoreStringFacts.
Local Open Scope string_scope.

Lemma replace_absent (old new s : string) :
  Py.contains old s = false -> Py.replace old new s = s.
Proof.
  unfold Py.replace. induction s as [|c s IH]; [reflexivity|].
  cbn [Py.contains Py.replace_from]. intros H.
  apply orb_false_iff in H. destruct H as [Hp Hc].
  rewrite Hp. now rewrite IH.
Qed.

Lemma strip_fixed (s : string) :
  Py.lstrip s = s -> Py.rstrip s = s -> Py.strip s = s.
Proof. unfold Py.strip. now intros -> ->. Qed.

Lemma longer_absent (old more s : string) :
  Py.contains old s = false -> Py.contains (old ++ more) s = false.
Proof.
  intros H. destruct (Py.contains (old ++ more) s) eqn:E; [|reflexivity].
  apply contains_spec in E. destruct E as (a & b & ->).
  assert (C : Py.contains old (a ++ (old ++ more) ++ b) = true).
  { apply contains_spec. exists a, (more ++ b).
    now rewrite !str_append_assoc. }
  congruence.
Qed.

(** X17. Whatever the chat service answers, the cleaned response contains no
    code fence and has no white space at either end. *)
Theorem clean_response_removes_fences (raw : string) :
  Py.contains Whisper.fence (Whisper.clean_response raw) = false
  /\ Py.lstrip (Whisper.clean_response raw) = Whisper.clean_response raw
  /\ Py.rstrip (Whisper.clean_response raw) = Whisper.clean_response raw.
Proof.
  unfold Whisper.clean_response. split; [|apply strip_trimmed].
  apply strip_keeps_absent.
  eapply replace_fence_invariant. apply Nat.lt_succ_diag_r.
Qed.

(** X18. Cleaning a cleaned response changes nothing. *)
Theorem clean_response_idempotent (raw : string) :
  Whisper.clean_response (Whisper.clean_response raw)
  = Whisper.clean_response raw.
Proof.
  destruct (clean_response_clean raw) as (Hf & Hl & Hr).
  set (x := Whisper.clean_response raw) in *.
  unfold Whisper.clean_response at 1.
  rewrite (@strip_fixed x Hl Hr).
  rewrite (@replace_absent Whisper.fence_applescript "" x)
    by (apply (@longer_absent Whisper.fence "applescript" x Hf)).
  rewrite (@replace_absent Whisper.fence "" x Hf).
  apply (@strip_fixed x Hl Hr).
Qed.

End MoreStringFacts.

Section WhisperFacts.

Variable chat_completion : list Message -> string + string.
Variable osascript : string -> WhisperAgent.Run.

Abbreviation session := (WhisperAgent.session chat_completion osascript).

Ltac runw :=
  cbv beta iota zeta delta
    [WhisperAgent.session WhisperAgent.generate_applescript
     WhisperAgent.execute_applescript WhisperAgent.PERMISSION_HELP
     print_all print log input bind ret final_world
     db stdin clock trace negb].

(** The case analysis along the branches of [session]. *)
Ltac explorew cmd i k :=
  runw;
  destruct (chat_completion (WhisperAgent.messages_for cmd))
    as [e|raw] eqn:G;
  [ k
  | destruct (Whisper.clean_response raw) as [|a s] eqn:S;
    [ k
    | destruct i as [|line rest];
      [ k
      | destruct (Py.in_yes_y (Py.lower (Py.strip line))) eqn:A; runw;
        [ destruct (osascript (String a s)) as [rc out err|e] eqn:X;
          [ destruct (rc =? 0)%Z eqn:R;
            [ k
            | destruct (Py.contains NOT_AUTHORISED err) eqn:C; runw; k ]
          | k ]
        | k ] ] ] ].

Ltac events :=
  unfold new_events; cbn [trace final_world];
  rewrite <- ?app_assoc, ?skipn_length_app; cbn [app].

(** X19. Whatever the chat service answers, a script that this agent runs
    contains no code fence, has no white space at either end, is not empty,
    and was approved by the user in this session. *)
Theorem whisper_runs_only_clean_approved_scripts
        (cmd : string) (w : World) (script : string) :
  In (Osascript script) (new_events w (final_world (session cmd w))) ->
  Py.contains Whisper.fence script = false
  /\ Py.lstrip script = script
  /\ Py.rstrip script = script
  /\ script <> EmptyString
  /\ exists line,
       In (Input ASK_APPROVAL (Some line))
          (new_events w (final_world (session cmd w)))
       /\ affirmative line = true.
Proof.
  destruct w as [d i c tr].
  assert (K : new_events (mkWorld d i c tr) (mkWorld d i c tr) = [])
    by (unfold new_events; cbn [trace];
        rewrite <- (app_nil_r tr) at 2; apply skipn_length_app).
  explorew cmd i
    ltac:(runw; first [rewrite K | events]; intros H; cbn [In] in H;
          decompose [or] H; try discriminate; try contradiction;
          match goal with
          | Hq : Osascript _ = Osascript _ |- _ => injection Hq as <-
          end;
          rewrite <- S;
          destruct (clean_response_clean raw) as (Hf & Hl & Hr);
          (split; [exact Hf|]); (split; [exact Hl|]); (split; [exact Hr|]);
          (split; [rewrite S; discriminate|]);
          exists line; (split; [cbn [In]; tauto | exact A])).
Qed.

(** X20. A session of this agent leaves the database alone, reads at most
    one line, from the front of the input, calls the chat service at most
    once and runs a script only after such a call; it can raise only at the
    end of the input. *)
Theorem whisper_session_effects (cmd : string) (w : World) :
  db (final_world (session cmd w)) = db w
  /\ (exists evs,
        trace (final_world (session cmd w)) = trace w ++ evs
        /\ stdin w = answers evs ++ stdin (final_world (session cmd w))
        /\ List.length (answers evs) <= 1
        /\ List.length (filter is_chat evs) <= 1
        /\ List.length (filter is_osascript evs)
           <= List.length (filter is_chat evs))
  /\ (forall x w', session cmd w = Raised x w' ->
                   x = EOFError /\ stdin w' = []).
Proof.
  destruct w as [d i c tr].
  explorew cmd i
    ltac:(runw; (split; [reflexivity|]);
          (split;
           [ eexists;
             (split;
              [ cbn [trace]; rewrite <- ?app_assoc; cbn [app]; reflexivity |]);
             cbn; repeat split; lia
           | intros x w' H;
             first [ discriminate H
                   | injection H as <- <-; split; reflexivity ] ])).
Qed.

Lemma whisper_session_grows (cmd : string) (w : World) :
  grows w (final_world (session cmd w)).
Proof.
  destruct w as [d i c tr].
  explorew cmd i
    ltac:(runw;
          first [ eapply grows_quiet with (read := @nil string);
                  [ reflexivity
                  | cbn [trace]; rewrite <- ?app_assoc; cbn [app];
                    reflexivity
                  | cbn; lia ]
                | eapply grows_quiet with (read := [line]);
                  [ reflexivity
                  | cbn [trace]; rewrite <- ?app_assoc; cbn [app];
                    reflexivity
                  | cbn; lia ] ]).
Qed.

Lemma whisper_session_raises (cmd : string) (w : World) (x : exn)
      (w' : World) :
  session cmd w = Raised x w' -> x = EOFError /\ stdin w' = [].
Proof.
  destruct w as [d i c tr].
  explorew cmd i
    ltac:(runw; intros H;
          first [ discriminate H
                | injection H as <- <-; split; reflexivity ]).
Qed.

Variable microphone : World -> Recording.
Variable transcription : string -> World -> string + string.
Variable wall_clock : World -> nat.

(** X21. Provided every external call returns (the chat service,
    [osascript], the microphone and the transcription are the functions
    [chat_completion], [osascript], [microphone] and [transcription]; the
    source sets no timeout, and a call that hangs blocks the loop for
    good), [main] of this agent ends on every finite input, by [break]
    after "quit" or with the end of the input, whatever more rounds are
    allowed; over the run it only reads from the front of the input and
    only adds to the trace. *)
Theorem whisper_main_ends (fuel : nat) (w : World) :
  List.length (stdin w) < fuel ->
  ended (WhisperAgent.main chat_completion osascript microphone
                           transcription wall_clock fuel w)
  /\ WhisperAgent.main chat_completion osascript microphone transcription
                       wall_clock fuel w
     = WhisperAgent.main chat_completion osascript microphone transcription
                         wall_clock (S (List.length (stdin w))) w
  /\ grows w (final_world
                (WhisperAgent.main chat_completion osascript microphone
                                   transcription wall_clock fuel w)).
Proof.
  intros Hlen. unfold WhisperAgent.main.
  destruct (@main_loop_run
              microphone transcription wall_clock session
              (fun _ => True) (fun _ _ _ _ => I)
              whisper_session_grows
              (fun c v x v' _ H => @whisper_session_raises c v x v' H)
              fuel w Hlen I)
    as (Hg & He & Hf).
  split; [exact He|]. split; [exact Hf | exact Hg].
Qed.

End WhisperFacts.

Lemma whisper_runs_only_clean_approved_scripts_witness :
  Py.contains Whisper.fence "beep" = false
  /\ Py.lstrip "beep" = "beep"
  /\ Py.rstrip "beep" = "beep"
  /\ "beep" <> EmptyString
  /\ exists line,
       In (Input ASK_APPROVAL (Some line))
          (new_events (Example.world ["y"])
                      (final_world
                         (WhisperAgent.session
                            Example.chat_fenced LoopExample.run_quietly
                            "beep" (Example.world ["y"]))))
       /\ affirmative line = true.
Proof.
  apply (@whisper_runs_only_clean_approved_scripts
           Example.chat_fenced LoopExample.run_quietly "beep"
           (Example.world ["y"]) "beep").
  vm_compute. tauto.
Defined.

Lemma whisper_main_ends_witness :
  ended (WhisperAgent.main Example.chat_fenced LoopExample.run_quietly
                           LoopExample.microphone LoopExample.transcription
                           LoopExample.wall_clock 5
                           (mkWorld None LoopExample.typed 0 [])).
Proof.
  apply (@whisper_main_ends
           Example.chat_fenced LoopExample.run_quietly
           LoopExample.microphone LoopExample.transcription
           LoopExample.wall_clock 5 (mkWorld None LoopExample.typed 0 [])).
  cbn. lia.
Defined.

(* ------------------------------------------------------------------ *)
(** ** What counts as a yes *)

Section Answers.
Local Open Scope string_scope.

Lemma lower_char_y (c : ascii) :
  Py.lower_char c = "y"%char -> c = "y"%char \/ c = "Y"%char.
Proof.
  destruct c as [[] [] [] [] [] [] [] []]; vm_compute; intros H;
    first [discriminate H | now left | now right].
Qed.

Lemma lower_char_e (c : ascii) :
  Py.lower_char c = "e"%char -> c = "e"%char \/ c = "E"%char.
Proof.
  destruct c as [[] [] [] [] [] [] [] []]; vm_compute; intros H;
    first [discriminate H | now left | now right].
Qed.

Lemma lower_char_s (c : ascii) :
  Py.lower_char c = "s"%char -> c = "s"%char \/ c = "S"%char.
Proof.
  destruct c as [[] [] [] [] [] [] [] []]; vm_compute; intros H;
    first [discriminate H | now left | now right].
Qed.

(** X22. The answers that approve a script or confirm a result are exactly
    "yes" and "y" in any mix of upper and lower case, with any white space
    around them; everything else, the empty answer included, declines. *)
Theorem affirmative_answers (line : string) :
  affirmative line = true
  <-> In (Py.strip line)
         ["yes"; "yeS"; "yEs"; "yES"; "Yes"; "YeS"; "YEs"; "YES"; "y"; "Y"].
Proof.
  unfold affirmative, Py.in_yes_y. generalize (Py.strip line). intros s.
  split.
  - intros H. apply orb_true_iff in H.
    destruct H as [H | H]; apply String.eqb_eq in H.
    + destruct s as [|c1 [|c2 [|c3 [|c4 s]]]]; try discriminate H.
      cbn [Py.lower] in H. injection H as H1 H2 H3.
      apply lower_char_y in H1. apply lower_char_e in H2.
      apply lower_char_s in H3.
      destruct H1 as [-> | ->]; destruct H2 as [-> | ->];
        destruct H3 as [-> | ->]; cbn [In]; tauto.
    + destruct s as [|c1 [|c2 s]]; try discriminate H.
      cbn [Py.lower] in H. injection H as H1.
      apply lower_char_y in H1.
      destruct H1 as [-> | ->]; cbn [In]; tauto.
  - cbn [In]. intros H.
    repeat (destruct H as [<- | H]; [vm_compute; reflexivity|]).
    contradiction.
Qed.

End Answers.
